(** * RSP data pipeline: CSV tokenizer, row normalizer, monthly aggregator,
      fallback generator and data loader of [src/data.ts], and the
      statistics panel of [src/main.ts], embedded and verified.

    JavaScript strings are modelled as [string], one [ascii] per UTF-16 code
    unit below 256 (Latin-1).  JavaScript numbers are IEEE 754 binary64
    values, modelled by [spec_float] with [prec = 53] and [emax = 1024]. *)

From Stdlib Require Import ZArith Bool Ascii String Lia.
From Stdlib Require Import Floats.SpecFloat.
From stdpp Require Import base list.

Local Open Scope string_scope.
Local Open Scope Z_scope.

(* ===================================================================== *)
(** * JavaScript strings *)
(* ===================================================================== *)

Module JsString.

Definition dquote : ascii := "034"%char.
Definition comma : ascii := ","%char.
Definition newline : ascii := "010"%char.

(** [!s] for a string [s]: only the empty string is falsy. *)
Definition isEmpty (s : string) : bool :=
  match s with EmptyString => true | String _ _ => false end.

(** WhiteSpace and LineTerminator code units below 256, the ones
    [String.prototype.trim] strips: TAB, LF, VT, FF, CR, SP, NBSP. *)
Definition isWhiteSpace (c : ascii) : bool :=
  match N_of_ascii c with
  | 9%N | 10%N | 11%N | 12%N | 13%N | 32%N | 160%N => true
  | _ => false
  end.

Fixpoint trimStart (s : string) : string :=
  match s with
  | EmptyString => EmptyString
  | String c r => if isWhiteSpace c then trimStart r else s
  end.

Fixpoint trimEnd (s : string) : string :=
  match s with
  | EmptyString => EmptyString
  | String c r =>
      let r' := trimEnd r in
      if isWhiteSpace c && isEmpty r' then EmptyString else String c r'
  end.

Definition trim (s : string) : string := trimEnd (trimStart s).

(** [String.prototype.toLowerCase] on Latin-1 code units: A-Z and the
    accented capitals 0xC0-0xDE (except the multiplication sign 0xD7) move
    up by 32. *)
Definition lowerChar (c : ascii) : ascii :=
  let n := N_of_ascii c in
  if ((65 <=? n) && (n <=? 90))%N then ascii_of_N (n + 32)
  else if ((192 <=? n) && (n <=? 222) && negb (n =? 215))%N then ascii_of_N (n + 32)
  else c.

Fixpoint toLowerCase (s : string) : string :=
  match s with
  | EmptyString => EmptyString
  | String c r => String (lowerChar c) (toLowerCase r)
  end.

(** [s.split(sep)] for a one-character separator: never empty, one more
    field than there are separators. *)
Fixpoint split (sep : ascii) (s : string) : list string :=
  match s with
  | EmptyString => [EmptyString]
  | String c r =>
      if Ascii.eqb c sep then EmptyString :: split sep r
      else match split sep r with
           | f :: fs => String c f :: fs
           | [] => [String c EmptyString]
           end
  end.

(** [s.includes(c)] for one character. *)
Fixpoint hasChar (c : ascii) (s : string) : bool :=
  match s with
  | EmptyString => false
  | String a r => Ascii.eqb a c || hasChar c r
  end.

Definition startsWith (p s : string) : bool := String.prefix p s.

End JsString.
Import JsString.

(* ===================================================================== *)
(** * Line tokenizer: [parseCSVLine] *)
(* ===================================================================== *)

Module Tokenizer.

(** The [for] loop of [parseCSVLine] over the characters still to read,
    with the three locals [result], [current] and [inQuotes]. *)
Fixpoint parseCSVLine_loop (line : string) (result : list string)
         (current : string) (inQuotes : bool) : list string :=
  match line with
  | EmptyString => result ++ [trim current]
  | String char rest =>
      if Ascii.eqb char dquote then
        parseCSVLine_loop rest result current (negb inQuotes)
      else if Ascii.eqb char comma && negb inQuotes then
        parseCSVLine_loop rest (result ++ [trim current]) EmptyString inQuotes
      else
        parseCSVLine_loop rest result (current ++ String char EmptyString) inQuotes
  end.

(** Nothing in the loop can throw, so the [catch] branch of the source
    (which returns the empty array) is never taken. *)
Definition parseCSVLine (line : string) : list string :=
  parseCSVLine_loop line [] EmptyString false.

End Tokenizer.
Import Tokenizer.

(* ===================================================================== *)
(** * JavaScript numbers *)
(* ===================================================================== *)

Module JsNumber.

(** A Number is a binary64 value; arithmetic rounds to nearest, ties to
    even. *)
Definition number : Type := spec_float.

Definition prec : Z := 53.
Definition emax : Z := 1024.

Definition NaN : number := S754_nan.
Definition Infinity : number := S754_infinity false.
Definition zero : number := S754_zero false.

Definition num_add : number -> number -> number := SFadd prec emax.
Definition num_sub : number -> number -> number := SFsub prec emax.
Definition num_mul : number -> number -> number := SFmul prec emax.
Definition num_div : number -> number -> number := SFdiv prec emax.
Definition num_ltb : number -> number -> bool := SFltb.
Definition num_leb : number -> number -> bool := SFleb.
Definition num_eqb : number -> number -> bool := SFeqb.
(** [x > y] and [x >= y] are [y < x] and [y <= x], false on NaN. *)
Definition num_gtb (x y : number) : bool := SFltb y x.
Definition num_geb (x y : number) : bool := SFleb y x.

Definition isNaN (x : number) : bool :=
  match x with S754_nan => true | _ => false end.

Definition isFinite (x : number) : bool :=
  match x with S754_zero _ | S754_finite _ _ _ => true | _ => false end.

(** The Number of an integer literal or an integer count (exact below
    2^53 in magnitude). *)
Definition num_of_Z (z : Z) : number := binary_normalize prec emax z 0 false.

(** The Number nearest to [m * 10^e10], the value of a decimal literal
    with digits [m] and decimal exponent [e10]. *)
Definition decimal (neg : bool) (m : Z) (e10 : Z) : number :=
  match m with
  | Zpos p =>
      if 0 <=? e10 then
        binary_normalize prec emax (cond_Zopp neg (Zpos p * 10 ^ e10)) 0 neg
      else
        let '(q, e, l) :=
          SFdiv_core_binary prec emax (Zpos p) 0 (10 ^ (- e10)) 0 in
        binary_round_aux prec emax neg q e l
  | _ => S754_zero neg
  end.

(** [Number.isInteger] on a Number. *)
Definition isInteger (x : number) : bool :=
  match x with
  | S754_zero _ => true
  | S754_finite _ m e =>
      if 0 <=? e then true else (Zpos m mod 2 ^ (- e) =? 0)
  | _ => false
  end.

(** The integer an integral Number stands for. *)
Definition toZ (x : number) : Z :=
  match x with
  | S754_finite s m e =>
      cond_Zopp s (if 0 <=? e then Zpos m * 2 ^ e else Zpos m / 2 ^ (- e))
  | _ => 0
  end.

(** [Math.round]: the nearest integral Number, ties towards +Infinity;
    NaN, the infinities and integral values are returned unchanged, and
    a result of zero keeps the sign of the argument. *)
Definition Math_round (x : number) : number :=
  match x with
  | S754_finite s m e =>
      if 0 <=? e then x
      else
        let k := Z.shiftr (cond_Zopp s (Zpos m) + 2 ^ (- e - 1)) (- e) in
        if k =? 0 then S754_zero s else num_of_Z k
  | _ => x
  end.

(** [Math.max] of two Numbers: NaN if either is NaN, and +0 is larger
    than -0. *)
Definition Math_max (x y : number) : number :=
  if isNaN x || isNaN y then NaN
  else match x, y with
       | S754_zero sx, S754_zero sy => S754_zero (sx && sy)
       | _, _ => if num_ltb x y then y else x
       end.

(** ** [parseFloat] *)

Definition isDigit (c : ascii) : bool :=
  let n := N_of_ascii c in ((48 <=? n) && (n <=? 57))%N.

Definition digitValue (c : ascii) : Z := Z.of_N (N_of_ascii c) - 48.

(** Reads the longest run of decimal digits: the value accumulated on
    [acc], the number of digits read, and the rest of the string. *)
Fixpoint readDigits (s : string) (acc : Z) (count : Z) : Z * Z * string :=
  match s with
  | String c r =>
      if isDigit c then readDigits r (10 * acc + digitValue c) (count + 1)
      else (acc, count, s)
  | EmptyString => (acc, count, s)
  end.

(** The optional ExponentPart: [e] or [E], an optional sign, and at least
    one digit; anything else contributes exponent 0. *)
Definition readExponent (s : string) : Z :=
  match s with
  | String c r =>
      if Ascii.eqb c "e"%char || Ascii.eqb c "E"%char then
        let '(neg, r1) :=
          match r with
          | String d r' =>
              if Ascii.eqb d "-"%char then (true, r')
              else if Ascii.eqb d "+"%char then (false, r')
              else (false, r)
          | EmptyString => (false, r)
          end in
        let '(v, n, _) := readDigits r1 0 0 in
        if n =? 0 then 0 else cond_Zopp neg v
      else 0
  | EmptyString => 0
  end.

(** [parseFloat(s)]: leading white space is skipped, the longest prefix
    that is a StrDecimalLiteral is converted, and NaN is returned when
    there is none. *)
Definition parseFloat (s : string) : number :=
  let s0 := trimStart s in
  let '(neg, s1) :=
    match s0 with
    | String c r =>
        if Ascii.eqb c "-"%char then (true, r)
        else if Ascii.eqb c "+"%char then (false, r)
        else (false, s0)
    | EmptyString => (false, s0)
    end in
  if startsWith "Infinity" s1 then S754_infinity neg
  else
    let '(ip, ni, r1) := readDigits s1 0 0 in
    let '(m, nf, r2) :=
      match r1 with
      | String c r =>
          if Ascii.eqb c "."%char then readDigits r ip 0 else (ip, 0, r1)
      | EmptyString => (ip, 0, r1)
      end in
    if ni + nf =? 0 then NaN
    else decimal neg m (readExponent r2 - nf).

(** ** Magnitude of a Number *)

(** A zero, or a finite Number whose mantissa has at most 53 binary digits
    and whose magnitude is below [2^k]. *)
Definition smallb (k : Z) (x : number) : bool :=
  match x with
  | S754_zero _ => true
  | S754_finite _ m e =>
      (Zpos (digits2_pos m) <=? 53) && (Zpos (digits2_pos m) + e <=? k)
  | _ => false
  end.

(** The sign bit; NaN has none. *)
Definition signOf (x : number) : bool :=
  match x with
  | S754_zero s | S754_infinity s | S754_finite s _ _ => s
  | S754_nan => false
  end.

End JsNumber.
Import JsNumber.

(* ===================================================================== *)
(** * Data model *)
(* ===================================================================== *)

(** [RSPDataPoint].  [year] and [month] hold integer-valued Numbers far
    below 2^53 (they come from [getFullYear], [getMonth() + 1], the year
    table and a loop counter), so they are kept as integers. *)
Record RSPDataPoint : Type := mkPoint {
  city : string;
  fuelType : string;
  year : Z;
  month : Z;
  rsp : number
}.

Definition metroCities : list string := ["Mumbai"; "Delhi"; "Chennai"; "Kolkata"].
Definition fuelTypes : list string := ["petrol"; "diesel"].
Definition availableYears : list Z :=
  [2017; 2018; 2019; 2020; 2021; 2022; 2023; 2024; 2025].

(** A [throw] that reaches the caller, or a returned value. *)
Inductive outcome (A : Type) : Type :=
| Returns (value : A)
| Throws (message : string).
Arguments Returns {A} value.
Arguments Throws {A} message.

(** [Math.round(x * 100) / 100]. *)
Definition round2 (x : number) : number :=
  num_div (Math_round (num_mul x (num_of_Z 100))) (num_of_Z 100).

(* ===================================================================== *)
(** * Row normalizer: [parseCSVData] *)
(* ===================================================================== *)

Module Normalizer.
Section WithDate.

(** [new Date(dateStr)] followed by [getFullYear()] and [getMonth()], in
    the local time zone: [None] when the date is invalid (its time value
    is NaN).  Which strings parse, and to what, is left to the engine by
    ECMAScript, so the parser is a parameter of the model. *)
Variable jsDate : string -> option (Z * Z).

(** What one iteration of the row loop does with its line. *)
Inductive rowResult : Type :=
| Blank
| Skipped
| Valid (point : RSPDataPoint).

(** The body of the [for] loop for [lines[i]].  No statement of the body
    can throw, so the per-row [catch] is never entered. *)
Definition processLine (rawLine : string) : rowResult :=
  let line := trim rawLine in
  if isEmpty line then Blank
  else
    let columns := parseCSVLine line in
    if (length columns <? 7)%nat then Skipped
    else
      let city := trim (nth 5 columns EmptyString) in
      let product := toLowerCase (trim (nth 4 columns EmptyString)) in
      let rspValue := trim (nth 6 columns EmptyString) in
      let dateStr := trim (nth 3 columns EmptyString) in
      if isEmpty city || isEmpty product || isEmpty rspValue || isEmpty dateStr
      then Skipped
      else if negb (String.eqb product "petrol") && negb (String.eqb product "diesel")
      then Skipped
      else
        match jsDate dateStr with
        | None => Skipped
        | Some (fullYear, monthIndex) =>
            let year := fullYear in
            let month := monthIndex + 1 in
            if (year <? 2017) || (year >? 2025) then Skipped
            else
              let rsp :=
                if String.eqb rspValue EmptyString || String.eqb rspValue "NA"
                   || String.eqb rspValue "N/A"
                then zero else parseFloat rspValue in
              if isNaN rsp || num_ltb rsp zero then Skipped
              else Valid (mkPoint city product year month (round2 rsp))
        end.

(** The locals [data], [validRows] and [skippedRows]. *)
Record parseState : Type := mkParseState {
  data : list RSPDataPoint;
  validRows : nat;
  skippedRows : nat
}.

Definition parseStep (st : parseState) (rawLine : string) : parseState :=
  match processLine rawLine with
  | Blank => st
  | Skipped => mkParseState (data st) (validRows st) (S (skippedRows st))
  | Valid point => mkParseState (data st ++ [point]) (S (validRows st)) (skippedRows st)
  end.

(** The [try] block of [parseCSVData]: the loop starts at [lines[1]]. *)
Definition parseCSVData_try (csvText : string) : outcome (list RSPDataPoint) :=
  let lines := split newline csvText in
  if (length lines <? 2)%nat then
    Throws "CSV file must have at least a header and one data row"
  else
    let st := fold_left parseStep (tail lines) (mkParseState [] 0 0) in
    if (validRows st =? 0)%nat then
      Throws "No valid data rows found in CSV file"
    else Returns (data st).

(** The outer [catch] rethrows with a prefixed message. *)
Definition parseCSVData (csvText : string) : outcome (list RSPDataPoint) :=
  match parseCSVData_try csvText with
  | Returns rows => Returns rows
  | Throws message => Throws ("CSV parsing failed: " ++ message)
  end.

End WithDate.

(** The two failures of [parseCSVData], as their callers see them. *)
Definition EmptySourceError : string :=
  "CSV parsing failed: CSV file must have at least a header and one data row".
Definition NoValidRowsError : string :=
  "CSV parsing failed: No valid data rows found in CSV file".

(** The five field constraints of a stored record. *)
Definition validPrice (p : number) : Prop :=
  isFinite p = true /\ num_leb zero p = true /\
  exists n : number, isInteger n = true /\ p = num_div n (num_of_Z 100).

Definition validPoint (d : RSPDataPoint) : Prop :=
  city d <> EmptyString /\
  (fuelType d = "petrol" \/ fuelType d = "diesel") /\
  2017 <= year d <= 2025 /\
  1 <= month d <= 12 /\
  validPrice (rsp d).

(** The rows that survive validation, in input order. *)
Definition pointOf (r : rowResult) : option RSPDataPoint :=
  match r with Valid point => Some point | _ => None end.

Definition validRowsOf (jsDate : string -> option (Z * Z)) (lines : list string)
  : list RSPDataPoint :=
  omap (fun rawLine => pointOf (processLine jsDate rawLine)) lines.

(** The fields of a data row, as [processLine] reads them. *)
Definition columnsOf (rawLine : string) : list string := parseCSVLine (trim rawLine).
Definition cityField (rawLine : string) : string :=
  trim (nth 5 (columnsOf rawLine) EmptyString).
Definition productField (rawLine : string) : string :=
  toLowerCase (trim (nth 4 (columnsOf rawLine) EmptyString)).
Definition dateField (rawLine : string) : string :=
  trim (nth 3 (columnsOf rawLine) EmptyString).
Definition priceField (rawLine : string) : string :=
  trim (nth 6 (columnsOf rawLine) EmptyString).

(** A row that is valid in everything but, possibly, its date and price:
    seven columns or more, a city, a product that is petrol or diesel, and
    a date field that is not empty. *)
Definition validBesidesDateAndPrice (rawLine : string) : Prop :=
  (7 <= length (columnsOf rawLine))%nat
  /\ cityField rawLine <> EmptyString
  /\ (productField rawLine = "petrol" \/ productField rawLine = "diesel")
  /\ dateField rawLine <> EmptyString.

(** A price field that passes the price checks: a placeholder, or text
    that [parseFloat] reads as a Number that is neither NaN nor negative. *)
Definition acceptedPrice (rspValue : string) : Prop :=
  rspValue <> EmptyString
  /\ (rspValue = "NA" \/ rspValue = "N/A"
      \/ (isNaN (parseFloat rspValue) = false
          /\ num_ltb (parseFloat rspValue) zero = false)).

(** The Number a price field stands for once accepted. *)
Definition priceOf (rspValue : string) : number :=
  if String.eqb rspValue "NA" || String.eqb rspValue "N/A" then zero
  else parseFloat rspValue.

(** What every stored record satisfies: the four constraints on city, fuel
    type, year and month, and a price that is a Number (not NaN) and at
    least 0; the price may still be infinite. *)
Definition fieldsValid (d : RSPDataPoint) : Prop :=
  city d <> EmptyString /\
  (fuelType d = "petrol" \/ fuelType d = "diesel") /\
  2017 <= year d <= 2025 /\
  1 <= month d <= 12 /\
  isNaN (rsp d) = false /\ num_leb zero (rsp d) = true.

(** A date parser for concrete runs: the date-only form [YYYY-MM-DD] of
    the ECMAScript date-time format, with month 01-12 and day 02-28.
    Such a string is read as midnight UTC of a day that is the same
    calendar month and year in every time zone, so every conforming
    engine agrees with the answer given here. *)
Definition twoDigits (a b : ascii) : option Z :=
  if isDigit a && isDigit b then Some (10 * digitValue a + digitValue b) else None.

Definition isoDate (s : string) : option (Z * Z) :=
  match s with
  | String y1 (String y2 (String y3 (String y4 (String d1
      (String m1 (String m2 (String d2 (String a1 (String a2 EmptyString))))))))) =>
      if Ascii.eqb d1 "-"%char && Ascii.eqb d2 "-"%char then
        match twoDigits y1 y2, twoDigits y3 y4, twoDigits m1 m2, twoDigits a1 a2 with
        | Some yh, Some yl, Some mo, Some dy =>
            if (1 <=? mo) && (mo <=? 12) && (2 <=? dy) && (dy <=? 28)
            then Some (100 * yh + yl, mo - 1) else None
        | _, _, _, _ => None
        end
      else None
  | _ => None
  end.

(** Sample input: the header of the data file and the text made of given
    lines, joined by line feeds. *)
Definition sampleHeader : string :=
  "Country,Year,Month,Calendar Day,Products ,Metro Cities,Retail Selling Price".

Fixpoint joinLines (lines : list string) : string :=
  match lines with
  | [] => EmptyString
  | [l] => l
  | l :: rest => l ++ String newline (joinLines rest)
  end.

End Normalizer.
Import Normalizer.

(* ===================================================================== *)
(** * Aggregator: [getMonthlyAverages] *)
(* ===================================================================== *)

Module Aggregator.

(** The values an argument of [getMonthlyAverages] can hold at run time,
    whatever its TypeScript annotation says.  An array holds
    [RSPDataPoint] objects. *)
Inductive jsval : Type :=
| JUndefined
| JNull
| JBool (b : bool)
| JNum (x : number)
| JStr (s : string)
| JArr (items : list RSPDataPoint).

(** ToBoolean. *)
Definition truthy (v : jsval) : bool :=
  match v with
  | JUndefined | JNull => false
  | JBool b => b
  | JNum x => match x with S754_nan | S754_zero _ => false | _ => true end
  | JStr s => negb (isEmpty s)
  | JArr _ => true
  end.

Definition isString (v : jsval) : bool :=
  match v with JStr _ => true | _ => false end.

(** [['petrol', 'diesel'].includes(v)]. *)
Definition includesFuel (v : jsval) : bool :=
  match v with
  | JStr s => String.eqb s "petrol" || String.eqb s "diesel"
  | _ => false
  end.

(** [!Number.isInteger(v) || v < 2017 || v > 2025]. *)
Definition yearRejected (v : jsval) : bool :=
  match v with
  | JNum x =>
      negb (isInteger x) || num_ltb x (num_of_Z 2017) || num_gtb x (num_of_Z 2025)
  | _ => true
  end.

(** [s === v] for a string field [s]. *)
Definition strictEqStr (s : string) (v : jsval) : bool :=
  match v with JStr t => String.eqb s t | _ => false end.

(** [z === v] for an integer-valued field [z]. *)
Definition strictEqInt (z : Z) (v : jsval) : bool :=
  match v with JNum x => isInteger x && (toZ x =? z) | _ => false end.

(** The callback of [data.filter]; the three arguments are the captured
    [city], [fuelType] and [year]. *)
Definition matches (cityArg fuelTypeArg yearArg : jsval) (d : RSPDataPoint) : bool :=
  strictEqStr (city d) cityArg && strictEqStr (fuelType d) fuelTypeArg
  && strictEqInt (year d) yearArg.

Definition zeros : list number := replicate 12 zero.

(** The callback of [filteredData.forEach]: [monthlyTotals] holds
    Numbers; [monthlyCounts] holds counts, integers below the largest
    array length, kept as [nat]. *)
Definition accumulate (acc : list number * list nat) (d : RSPDataPoint)
  : list number * list nat :=
  let '(monthlyTotals, monthlyCounts) := acc in
  if (1 <=? month d) && (month d <=? 12) && negb (isNaN (rsp d)) then
    let i := Z.to_nat (month d - 1) in
    (<[i := num_add (default zero (monthlyTotals !! i)) (rsp d)]> monthlyTotals,
     <[i := S (default O (monthlyCounts !! i))]> monthlyCounts)
  else acc.

(** The callback of [monthlyTotals.map]. *)
Definition average (monthlyCounts : list nat) (index : nat) (total : number) : number :=
  let count := default O (monthlyCounts !! index) in
  if (0 <? count)%nat then round2 (num_div total (num_of_Z (Z.of_nat count)))
  else zero.

(** The [try] block. *)
Definition getMonthlyAverages_try (data city fuelType year : jsval)
  : outcome (list number) :=
  match data with
  | JArr items =>
      if negb (truthy city) || negb (isString city) then
        Throws "City must be a non-empty string"
      else if negb (truthy fuelType) || negb (includesFuel fuelType) then
        Throws ("Fuel type must be either " ++ String dquote "petrol"
                ++ String dquote " or " ++ String dquote "diesel"
                ++ String dquote EmptyString)
      else if yearRejected year then
        Throws "Year must be an integer between 2017 and 2025"
      else
        let filteredData := List.filter (matches city fuelType year) items in
        if (length filteredData =? 0)%nat then Returns zeros
        else
          let '(monthlyTotals, monthlyCounts) :=
            fold_left accumulate filteredData (zeros, replicate 12 O) in
          Returns (imap (average monthlyCounts) monthlyTotals)
  | _ => Throws "Data must be an array"
  end.

(** The [catch] block turns every failure into twelve zeros. *)
Definition getMonthlyAverages (data city fuelType year : jsval) : list number :=
  match getMonthlyAverages_try data city fuelType year with
  | Returns series => series
  | Throws _ => zeros
  end.

(** The records that [accumulate] adds to the bucket of index [i]. *)
Definition counted (i : nat) (d : RSPDataPoint) : bool :=
  (month d =? Z.of_nat i + 1) && negb (isNaN (rsp d)).

(** The records that a query for [cityName], [fuel] and the year [y]
    counts in the bucket of index [i], the month [i + 1]. *)
Definition bucketOf (items : list RSPDataPoint) (cityName fuel : string)
           (y : Z) (i : nat) : list RSPDataPoint :=
  List.filter
    (fun d => String.eqb (city d) cityName && String.eqb (fuelType d) fuel
              && (year d =? y) && (month d =? Z.of_nat i + 1))
    items.

(** The sum of the prices from left to right, starting from 0, divided by
    their number and rounded to two decimals; 0 for an empty bucket. *)
Definition meanOf (bucket : list RSPDataPoint) : number :=
  match bucket with
  | [] => zero
  | _ => round2 (num_div (fold_left num_add (List.map rsp bucket) zero)
                         (num_of_Z (Z.of_nat (length bucket))))
  end.

(** Arguments that fail the validation of [getMonthlyAverages]. *)
Definition badCity (v : jsval) : Prop :=
  (forall s, v <> JStr s) \/ v = JStr EmptyString.
Definition badFuel (v : jsval) : Prop :=
  v <> JStr "petrol" /\ v <> JStr "diesel".
Definition badYear (v : jsval) : Prop :=
  (forall x, v <> JNum x)
  \/ exists x, v = JNum x
              /\ (isInteger x = false \/ num_ltb x (num_of_Z 2017) = true
                  \/ num_gtb x (num_of_Z 2025) = true).
Definition notArray (v : jsval) : Prop := forall items, v <> JArr items.

(** ** Rounding to two decimals, in the specification's words *)

(** [nearestInteger x n]: [n] is the integer nearest to the finite Number
    [x], a half going up: [n - 1/2 <= x < n + 1/2].  The value of [x] is
    [(-1)^s * m * 2^e]; both sides are multiplied by 2, and by [2^(-e)]
    when [e < 0], so that the comparison is one of integers. *)
Definition nearestInteger (x : number) (n : Z) : Prop :=
  match x with
  | S754_zero _ => n = 0
  | S754_finite s m e =>
      (2 * n - 1) * 2 ^ Z.max (- e) 0
      <= 2 * (cond_Zopp s (Zpos m) * 2 ^ Z.max e 0)
      < (2 * n + 1) * 2 ^ Z.max (- e) 0
  | _ => False
  end.

(** [integerValue x n]: the value of the Number [x] is the integer [n]. *)
Definition integerValue (x : number) (n : Z) : Prop :=
  match x with
  | S754_zero _ => n = 0
  | S754_finite s m e =>
      cond_Zopp s (Zpos m) * 2 ^ Z.max e 0 = n * 2 ^ Z.max (- e) 0
  | _ => False
  end.

(** [roundedTo2Decimals v r]: [r] is [v] rounded to two decimal places, a
    whole number of hundredths: the integer nearest to [100 * v], divided
    by 100.  An infinite or NaN [100 * v] has no nearest integer and is
    [r] itself. *)
Definition roundedTo2Decimals (v r : number) : Prop :=
  let scaled := num_mul v (num_of_Z 100) in
  if isFinite scaled then
    exists (k : number) (n : Z),
      nearestInteger scaled n /\ integerValue k n /\ r = num_div k (num_of_Z 100)
  else r = scaled.

(** The value the specification gives to a month whose matching records
    are [bucket]: 0 for no record, otherwise sum / count rounded to two
    decimal places, the sum taken from left to right starting from 0. *)
Definition monthValue (bucket : list RSPDataPoint) (v : number) : Prop :=
  match bucket with
  | [] => v = zero
  | _ =>
      roundedTo2Decimals
        (num_div (fold_left num_add (List.map rsp bucket) zero)
                 (num_of_Z (Z.of_nat (length bucket))))
        v
  end.

End Aggregator.
Import Aggregator.

(* ===================================================================== *)
(** * Fallback generator: [generateSampleData] *)
(* ===================================================================== *)

Module Generator.

Definition multipliers : list (string * number) :=
  [ ("Mumbai", decimal false 12 (-1));
    ("Delhi", decimal false 11 (-1));
    ("Bangalore", decimal false 115 (-2));
    ("Chennai", decimal false 105 (-2));
    ("Kolkata", num_of_Z 1);
    ("Hyderabad", decimal false 108 (-2));
    ("Pune", decimal false 112 (-2));
    ("Ahmedabad", decimal false 95 (-2));
    ("Jaipur", decimal false 98 (-2));
    ("Lucknow", decimal false 92 (-2)) ].

Fixpoint lookupKey (key : string) (table : list (string * number)) : option number :=
  match table with
  | [] => None
  | (k, v) :: rest => if String.eqb k key then Some v else lookupKey key rest
  end.

(** [multipliers[city] || 1.0]; every entry of the table is truthy. *)
Definition getCityMultiplier (city : string) : number :=
  default (num_of_Z 1) (lookupKey city multipliers).

Definition variations : list Z := [-5; -3; 2; 5; 8; 10; 12; 10; 5; 0; -2; -4].

(** [variations[month - 1] || 0]. *)
Definition getMonthVariation (month : Z) : number :=
  if month <? 1 then zero
  else num_of_Z (default 0 (variations !! Z.to_nat (month - 1))).

(** The value before the random term:
    [basePrice * cityMultiplier * yearMultiplier + monthVariation]. *)
Definition trend (city fuelType : string) (year month : Z) : number :=
  let basePrice := if String.eqb fuelType "petrol" then num_of_Z 80 else num_of_Z 75 in
  let cityMultiplier := getCityMultiplier city in
  let yearMultiplier :=
    num_add (num_of_Z 1)
            (num_mul (num_sub (num_of_Z year) (num_of_Z 2021)) (decimal false 5 (-2))) in
  let monthVariation := getMonthVariation month in
  num_add (num_mul (num_mul basePrice cityMultiplier) yearMultiplier) monthVariation.

(** The record pushed by one iteration of the innermost loop, given the
    value [r] that its call of [Math.random()] returned. *)
Definition samplePoint (r : number) (city fuelType : string) (year month : Z)
  : RSPDataPoint :=
  let randomVariation := num_mul (num_sub r (decimal false 5 (-1))) (num_of_Z 10) in
  let rsp := Math_max zero (num_add (trend city fuelType year month) randomVariation) in
  mkPoint city fuelType year month (round2 rsp).

Section WithRandom.

(** [random k] is what the [k]-th call of [Math.random()] returns, counting
    from 0. *)
Variable random : nat -> number.

(** The array [data] and the number of calls of [Math.random()] so far. *)
Record genState : Type := mkGenState { out : list RSPDataPoint; calls : nat }.

Definition monthBody (city fuelType : string) (year : Z) (st : genState) (month : Z)
  : genState :=
  mkGenState (out st ++ [samplePoint (random (calls st)) city fuelType year month])
             (S (calls st)).

Definition yearBody (city fuelType : string) (st : genState) (year : Z) : genState :=
  fold_left (monthBody city fuelType year) (seqZ 1 12) st.

Definition fuelBody (city : string) (st : genState) (fuelType : string) : genState :=
  fold_left (yearBody city fuelType) availableYears st.

Definition cityBody (st : genState) (city : string) : genState :=
  fold_left (fuelBody city) fuelTypes st.

Definition generateSampleData : list RSPDataPoint :=
  out (fold_left cityBody metroCities (mkGenState [] 0)).

End WithRandom.

(** The key of a record and the cross product, in generation order. *)
Definition keyOf (d : RSPDataPoint) : string * string * Z * Z :=
  (city d, fuelType d, year d, month d).

Definition crossProduct : list (string * string * Z * Z) :=
  c ← metroCities; f ← fuelTypes; y ← availableYears; m ← seqZ 1 12;
  [(c, f, y, m)].

(** The record generated for the [k]-th key, with the [k]-th value of
    [Math.random()]. *)
Definition sampleOf (random : nat -> number) (k : nat) (key : string * string * Z * Z)
  : RSPDataPoint :=
  let '(c, f, y, m) := key in samplePoint (random k) c f y m.

(** What makes a key of the cross product valid, and its trend small. *)
Definition keyOk (key : string * string * Z * Z) : bool :=
  let '(c, f, y, m) := key in
  negb (isEmpty c) && (String.eqb f "petrol" || String.eqb f "diesel")
  && (2017 <=? y) && (y <=? 2025) && (1 <=? m) && (m <=? 12)
  && smallb 8 (trend c f y m).

(** Keys that differ pairwise. *)
Definition keyEqb (a b : string * string * Z * Z) : bool :=
  let '(c1, f1, y1, m1) := a in
  let '(c2, f2, y2, m2) := b in
  String.eqb c1 c2 && String.eqb f1 f2 && (y1 =? y2) && (m1 =? m2).

Fixpoint distinctb (l : list (string * string * Z * Z)) : bool :=
  match l with
  | [] => true
  | key :: rest => negb (existsb (keyEqb key) rest) && distinctb rest
  end.

(** [Math.random()] returns a Number in [0, 1). *)
Definition unitInterval (r : number) : Prop :=
  valid_binary prec emax r = true /\ num_leb zero r = true
  /\ num_ltb r (num_of_Z 1) = true.

End Generator.
Import Generator.

(* ===================================================================== *)
(** * Data loader: [loadRealData] *)
(* ===================================================================== *)

Module Loader.

(** [hay.includes(needle)]. *)
Fixpoint includes (needle hay : string) : bool :=
  String.prefix needle hay
  || match hay with
     | EmptyString => false
     | String _ rest => includes needle rest
     end.

(** What [fetch('/data.csv')] resolves to, as far as [loadRealData] looks
    at it: the [ok] flag, the value of the content-type header ([None] when
    the header is absent) and the text of the body ([None] when reading it
    fails). *)
Record response : Type := mkResponse {
  ok : bool;
  contentType : option string;
  body : option string
}.

(** The promise of [fetch] is rejected, or resolves to a response. *)
Inductive fetched : Type :=
| Rejected
| Resolved (r : response).

(** What the [try] block of [loadRealData] throws, or what a call of it
    rejects with: the fetch itself, a status that is not ok, a content type
    without [text/csv], the reading of the body, an empty or blank body,
    the error of [parseCSVData], an empty array of records. *)
Inductive loadFailure : Type :=
| FetchFailed
| HttpError
| InvalidContentType
| BodyFailed
| EmptyFile
| ParsingFailed (message : string)
| NoValidData.

Section WithEnvironment.

Variable jsDate : string -> option (Z * Z).
Variable random : nat -> number.

(** The [try] block. *)
Definition loadRealData_try (f : fetched) : loadFailure + list RSPDataPoint :=
  match f with
  | Rejected => inl FetchFailed
  | Resolved r =>
      if negb (ok r) then inl HttpError
      else if negb (match contentType r with
                    | Some value => includes "text/csv" value
                    | None => false
                    end)
      then inl InvalidContentType
      else
        match body r with
        | None => inl BodyFailed
        | Some csvText =>
            if isEmpty csvText || (String.length (trim csvText) =? 0)%nat
            then inl EmptyFile
            else
              match parseCSVData jsDate csvText with
              | Throws message => inl (ParsingFailed message)
              | Returns parsedData =>
                  if (length parsedData =? 0)%nat then inl NoValidData
                  else inr parsedData
              end
        end
  end.

(** The [catch] block logs the error and returns the sample data. *)
Definition loadRealData (f : fetched) : list RSPDataPoint :=
  match loadRealData_try f with
  | inr parsedData => parsedData
  | inl _ => generateSampleData random
  end.

End WithEnvironment.

End Loader.
Import Loader.

(* ===================================================================== *)
(** * Statistics panel: [updateStatistics] *)
(* ===================================================================== *)

Module Statistics.

(** [Math.min] of two Numbers: NaN if either is NaN, and -0 is smaller
    than +0. *)
Definition Math_min (x y : number) : number :=
  if isNaN x || isNaN y then NaN
  else match x, y with
       | S754_zero sx, S754_zero sy => S754_zero (sx || sy)
       | _, _ => if num_ltb y x then y else x
       end.

(** [Math.max(...values)] and [Math.min(...values)]: the scan starts from
    -Infinity and from +Infinity. *)
Definition maxOf (values : list number) : number :=
  fold_left Math_max values (S754_infinity true).

Definition minOf (values : list number) : number :=
  fold_left Math_min values Infinity.

(** The four Numbers whose [toFixed(2)] texts are written to the panel. *)
Record statistics : Type := mkStatistics {
  avgPrice : number;
  maxPrice : number;
  minPrice : number;
  priceRange : number
}.

(** The values that count as data. *)
Definition aboveZero (value : number) : bool := num_gtb value zero.

(** [updateStatistics]: [None] when no value is positive, the panel being
    hidden and nothing written; otherwise the statistics written. *)
Definition updateStatistics (monthlyData : list number) : option statistics :=
  let validData := List.filter aboveZero monthlyData in
  if (length validData =? 0)%nat then None
  else
    let avgPrice :=
      num_div (fold_left num_add validData zero)
              (num_of_Z (Z.of_nat (length validData))) in
    let maxPrice := maxOf validData in
    let minPrice := minOf validData in
    let priceRange := num_sub maxPrice minPrice in
    Some (mkStatistics avgPrice maxPrice minPrice priceRange).

End Statistics.
Import Statistics.

(* ===================================================================== *)
(** * Measures used to state properties *)
(* ===================================================================== *)

(** The commas of a line that lie outside quotes, for a scan that starts
    with the flag [inQuotes]. *)
Fixpoint separators (line : string) (inQuotes : bool) : nat :=
  match line with
  | EmptyString => O
  | String char rest =>
      if Ascii.eqb char dquote then separators rest (negb inQuotes)
      else if Ascii.eqb char comma && negb inQuotes then S (separators rest inQuotes)
      else separators rest inQuotes
  end.

(** A Number that is not NaN and is at least 0. *)
Definition nonNegative (x : number) : Prop :=
  isNaN x = false /\ num_leb zero x = true.

(** A Number that is not NaN and whose sign bit is clear. *)
Definition signClear (x : number) : bool :=
  match x with
  | S754_nan => false
  | S754_zero s | S754_infinity s | S754_finite s _ _ => negb s
  end.

(* ===================================================================== *)
(** * Properties of the string functions *)
(* ===================================================================== *)

Local Open Scope list_scope.

Section StringFacts.

Lemma append_empty_r (s : string) : (s ++ EmptyString)%string = s.
Proof. induction s as [|c s IH]; simpl; [reflexivity | now rewrite IH]. Qed.

Lemma append_assoc (a b c : string) :
  ((a ++ b) ++ c)%string = (a ++ (b ++ c))%string.
Proof. induction a as [|x a IH]; simpl; [reflexivity | now rewrite IH]. Qed.

Lemma append_snoc_cons (a : string) (c : ascii) (b : string) :
  ((a ++ String c EmptyString) ++ b)%string = (a ++ String c b)%string.
Proof. now rewrite append_assoc. Qed.

Lemma hasChar_append (c : ascii) (a b : string) :
  hasChar c (a ++ b) = hasChar c a || hasChar c b.
Proof.
  induction a as [|x a IH]; simpl; [reflexivity|].
  rewrite IH. now rewrite orb_assoc.
Qed.

Lemma hasChar_trimStart (c : ascii) (s : string) :
  hasChar c s = false -> hasChar c (trimStart s) = false.
Proof.
  induction s as [|x s IH]; simpl; [easy|].
  intros H. apply orb_false_iff in H as [Hx Hs].
  destruct (isWhiteSpace x); [auto|].
  simpl. now rewrite Hx, Hs.
Qed.

Lemma hasChar_trimEnd (c : ascii) (s : string) :
  hasChar c s = false -> hasChar c (trimEnd s) = false.
Proof.
  induction s as [|x s IH]; simpl; [easy|].
  intros H. apply orb_false_iff in H as [Hx Hs].
  destruct (isWhiteSpace x && isEmpty (trimEnd s)); [reflexivity|].
  simpl. rewrite Hx. now apply IH.
Qed.

Lemma hasChar_trim (c : ascii) (s : string) :
  hasChar c s = false -> hasChar c (trim s) = false.
Proof. intros H. unfold trim. now apply hasChar_trimEnd, hasChar_trimStart. Qed.

Lemma split_not_nil (sep : ascii) (s : string) : split sep s <> [].
Proof.
  induction s as [|c s IH]; simpl; [easy|].
  destruct (Ascii.eqb c sep); [easy|].
  destruct (split sep s); easy.
Qed.

(** Without the separator there is one field, the string itself. *)
Lemma split_no_sep (sep : ascii) (s : string) :
  hasChar sep s = false -> split sep s = [s].
Proof.
  induction s as [|c s IH]; simpl; [easy|].
  intros H. apply orb_false_iff in H as [Hc Hs].
  rewrite Hc, (IH Hs). reflexivity.
Qed.

(** The number of fields is one more than the number of separators. *)
Lemma split_length_ge_2 (sep : ascii) (s : string) :
  hasChar sep s = true <-> (2 <= length (split sep s))%nat.
Proof.
  induction s as [|c s IH]; simpl.
  - split; [easy | lia].
  - destruct (Ascii.eqb c sep) eqn:Hc; simpl.
    + split; [intros _|easy].
      pose proof (split_not_nil sep s). destruct (split sep s); simpl; [easy | lia].
    + rewrite IH. pose proof (split_not_nil sep s).
      destruct (split sep s); simpl; [easy | reflexivity].
Qed.

End StringFacts.

(* ===================================================================== *)
(** * Properties of the tokenizer *)
(* ===================================================================== *)

Section TokenizerFacts.

(** Fields already pushed are never touched again. *)
Lemma loop_result_prefix (line : string) (r1 r2 : list string)
      (current : string) (inQuotes : bool) :
  parseCSVLine_loop line (r1 ++ r2) current inQuotes
  = r1 ++ parseCSVLine_loop line r2 current inQuotes.
Proof.
  revert r2 current inQuotes.
  induction line as [|c line IH]; intros r2 current inQuotes; simpl.
  - now rewrite <- app_assoc.
  - destruct (Ascii.eqb c dquote); [apply IH|].
    destruct (Ascii.eqb c comma && negb inQuotes); [|apply IH].
    rewrite <- app_assoc. apply IH.
Qed.

Lemma loop_result_cons (line : string) (f : string) (current : string)
      (inQuotes : bool) :
  parseCSVLine_loop line [f] current inQuotes
  = f :: parseCSVLine_loop line [] current inQuotes.
Proof. apply (loop_result_prefix line [f] []). Qed.

(** Outside quotes, a run without quote or comma is copied to the buffer. *)
Lemma loop_plain_run (f rest : string) (result : list string) (current : string) :
  hasChar dquote f = false -> hasChar comma f = false ->
  parseCSVLine_loop (f ++ rest) result current false
  = parseCSVLine_loop rest result (current ++ f) false.
Proof.
  revert current.
  induction f as [|c f IH]; intros current Hq Hc; simpl.
  - now rewrite append_empty_r.
  - simpl in Hq, Hc.
    apply orb_false_iff in Hq as [Hq1 Hq2].
    apply orb_false_iff in Hc as [Hc1 Hc2].
    rewrite Hq1, Hc1. simpl. rewrite (IH _ Hq2 Hc2).
    now rewrite append_snoc_cons.
Qed.

(** Inside quotes, everything up to the closing quote is copied, commas
    included. *)
Lemma loop_quoted_run (q rest : string) (result : list string) (current : string) :
  hasChar dquote q = false ->
  parseCSVLine_loop (q ++ String dquote rest) result current true
  = parseCSVLine_loop rest result (current ++ q) false.
Proof.
  revert current.
  induction q as [|c q IH]; intros current Hq; simpl.
  - now rewrite append_empty_r.
  - simpl in Hq. apply orb_false_iff in Hq as [Hq1 Hq2].
    rewrite Hq1, andb_false_r. rewrite (IH _ Hq2).
    now rewrite append_snoc_cons.
Qed.

(** The loop keeps a property of the buffer and of the pushed fields that
    trimming and appending an input character other than a quote keep. *)
Lemma loop_no_quote (line : string) (result : list string) (current : string)
      (inQuotes : bool) :
  Forall (fun f => hasChar dquote f = false) result ->
  hasChar dquote current = false ->
  Forall (fun f => hasChar dquote f = false)
         (parseCSVLine_loop line result current inQuotes).
Proof.
  revert result current inQuotes.
  induction line as [|c line IH]; intros result current inQuotes Hr Hc; simpl.
  - apply Forall_app. split; [assumption|].
    constructor; [now apply hasChar_trim | constructor].
  - destruct (Ascii.eqb c dquote) eqn:Hq; [now apply IH|].
    destruct (Ascii.eqb c comma && negb inQuotes).
    + apply IH; [|reflexivity].
      apply Forall_app. split; [assumption|].
      constructor; [now apply hasChar_trim | constructor].
    + apply IH; [assumption|].
      rewrite hasChar_append, Hc. simpl. now rewrite Hq.
Qed.

(** Without quotes, the loop is a split on the comma, each field trimmed,
    the buffer being the start of the first field. *)
Lemma loop_unquoted (line : string) (result : list string) (current : string) :
  hasChar dquote line = false ->
  parseCSVLine_loop line result current false
  = result ++ match split comma line with
              | f :: fs => trim (current ++ f) :: List.map trim fs
              | [] => []
              end.
Proof.
  revert result current.
  induction line as [|c line IH]; intros result current Hq; simpl.
  - now rewrite append_empty_r.
  - simpl in Hq. apply orb_false_iff in Hq as [Hq1 Hq2]. rewrite Hq1.
    destruct (Ascii.eqb c comma) eqn:Hc; simpl.
    + rewrite (IH _ _ Hq2), append_empty_r, <- app_assoc. simpl.
      pose proof (split_not_nil comma line) as Hne.
      destruct (split comma line) as [|f fs]; [easy|]. reflexivity.
    + rewrite (IH _ _ Hq2).
      pose proof (split_not_nil comma line) as Hne.
      destruct (split comma line) as [|f fs]; [easy|].
      now rewrite append_snoc_cons.
Qed.

End TokenizerFacts.

Section TokenizerClaims.

(** C7: [parseCSVLine] scans left to right with the flag [inQuotes].  A comma
    outside quotes ends the current field, which is trimmed and pushed,
    and the buffer restarts empty; a comma inside quotes is kept in the
    buffer; a quote only toggles the flag; at the end of the line the
    trimmed buffer is pushed as the last field, even when it is empty.
    Hence a plain run before a comma is one trimmed field, a quoted run
    keeps its commas, a trailing comma gives a last empty field, and
    tokenizing [a,"b,c",d] gives the three fields [a], [b,c] and [d]. *)
Theorem C7_tokenizer_scan :
  (forall rest result current,
      parseCSVLine_loop (String comma rest) result current false
      = parseCSVLine_loop rest (result ++ [trim current]) EmptyString false)
  /\ (forall rest result current,
      parseCSVLine_loop (String comma rest) result current true
      = parseCSVLine_loop rest result (current ++ ",") true)
  /\ (forall rest result current inQuotes,
      parseCSVLine_loop (String dquote rest) result current inQuotes
      = parseCSVLine_loop rest result current (negb inQuotes))
  /\ (forall result current inQuotes,
      parseCSVLine_loop EmptyString result current inQuotes
      = result ++ [trim current])
  /\ (forall f rest,
      hasChar dquote f = false -> hasChar comma f = false ->
      parseCSVLine (f ++ String comma rest) = trim f :: parseCSVLine rest)
  /\ (forall pre q post rest,
      hasChar dquote pre = false -> hasChar comma pre = false ->
      hasChar dquote q = false ->
      hasChar dquote post = false -> hasChar comma post = false ->
      parseCSVLine (pre ++ String dquote (q ++ String dquote (post ++ String comma rest)))
      = trim (pre ++ q ++ post) :: parseCSVLine rest)
  /\ (forall f,
      hasChar dquote f = false -> hasChar comma f = false ->
      parseCSVLine f = [trim f]
      /\ parseCSVLine (f ++ ",") = [trim f; EmptyString])
  /\ parseCSVLine ("a," ++ String dquote ("b,c" ++ String dquote ",d"))
     = ["a"; "b,c"; "d"].
Proof.
  assert (Hfield : forall f rest current,
             hasChar dquote f = false -> hasChar comma f = false ->
             parseCSVLine_loop (f ++ String comma rest) [] current false
             = trim (current ++ f) :: parseCSVLine rest).
  { intros f rest current Hq Hc.
    rewrite (loop_plain_run f _ [] current Hq Hc). simpl.
    apply loop_result_cons. }
  do 4 (split; [reflexivity|]).
  split; [|split; [|split]].
  - intros f rest Hq Hc. apply (Hfield f rest EmptyString Hq Hc).
  - intros pre q post rest Hq1 Hc1 Hq2 Hq3 Hc3. unfold parseCSVLine.
    rewrite (loop_plain_run pre _ [] EmptyString Hq1 Hc1). simpl.
    rewrite (loop_quoted_run q _ [] pre Hq2).
    rewrite (loop_plain_run post _ [] _ Hq3 Hc3). simpl.
    rewrite loop_result_cons. now rewrite append_assoc.
  - intros f Hq Hc. split.
    + unfold parseCSVLine.
      rewrite <- (append_empty_r f) at 1.
      now rewrite (loop_plain_run f EmptyString [] EmptyString).
    + apply (Hfield f EmptyString EmptyString Hq Hc).
  - reflexivity.
Qed.

Lemma C7_tokenizer_scan_witness :
  parseCSVLine (" x " ++ String comma "y") = ["x"; "y"].
Proof.
  destruct C7_tokenizer_scan as (_ & _ & _ & _ & Hfield & _).
  rewrite (Hfield " x " "y"); reflexivity.
Defined.

(** C10: no field returned by [parseCSVLine] contains a double quote: every
    quote of the line only toggles the flag, also when the last quote is
    never closed. *)
Theorem C10_no_quote_in_fields (line : string) :
  Forall (fun field => hasChar dquote field = false) (parseCSVLine line).
Proof. apply loop_no_quote; [constructor | reflexivity]. Qed.

(** C6, as amended: for a line without quotes, [parseCSVLine] returns the
    naive split on the comma with every field trimmed of leading and
    trailing white space; it is the naive split itself when no field has
    such white space. *)
Theorem C6_unquoted_is_trimmed_split (line : string) :
  hasChar dquote line = false ->
  parseCSVLine line = List.map trim (split comma line)
  /\ (Forall (fun f => trim f = f) (split comma line) ->
      parseCSVLine line = split comma line).
Proof.
  intros Hq.
  assert (Heq : parseCSVLine line = List.map trim (split comma line)).
  { unfold parseCSVLine. rewrite (loop_unquoted line [] EmptyString Hq).
    destruct (split comma line); reflexivity. }
  split; [exact Heq|].
  intros Hall. rewrite Heq. clear Heq Hq.
  induction Hall as [|f fs Hf _ IH]; simpl; [reflexivity|].
  rewrite Hf. f_equal. exact IH.
Qed.

Lemma C6_unquoted_is_trimmed_split_witness :
  parseCSVLine "a, b" = ["a"; "b"].
Proof.
  destruct (C6_unquoted_is_trimmed_split "a, b") as [H _]; [reflexivity|].
  rewrite H. reflexivity.
Defined.

(** C6, as stated, fails: the line [a, b] has no quote, the naive split keeps
    the space of its second field and [parseCSVLine] does not. *)
Lemma C6_naive_split_counterexample :
  hasChar dquote "a, b" = false
  /\ parseCSVLine "a, b" = ["a"; "b"]
  /\ split comma "a, b" = ["a"; " b"]
  /\ parseCSVLine "a, b" <> split comma "a, b".
Proof. do 3 (split; [reflexivity|]). discriminate. Qed.

End TokenizerClaims.

(* ===================================================================== *)
(** * Properties of the row normalizer *)
(* ===================================================================== *)

Section NormalizerFacts.

Variable jsDate : string -> option (Z * Z).

Lemma isEmpty_false (s : string) : isEmpty s = false <-> s <> EmptyString.
Proof. destruct s; simpl; split; intros; congruence. Qed.

Lemma isEmpty_true (s : string) : isEmpty s = true <-> s = EmptyString.
Proof. destruct s; simpl; split; intros; congruence. Qed.

(** The loop accumulates exactly the surviving rows and counts them. *)
Lemma fold_parseStep (lines : list string) (st : parseState) :
  data (fold_left (parseStep jsDate) lines st) = data st ++ validRowsOf jsDate lines
  /\ validRows (fold_left (parseStep jsDate) lines st)
     = (validRows st + length (validRowsOf jsDate lines))%nat.
Proof.
  revert st. induction lines as [|l lines IH]; intros st; simpl.
  - rewrite app_nil_r. split; [reflexivity | lia].
  - destruct (IH (parseStep jsDate st l)) as [Hd Hv]. rewrite Hd, Hv.
    unfold validRowsOf, parseStep. simpl.
    destruct (processLine jsDate l); simpl.
    + split; [reflexivity | lia].
    + split; [reflexivity | lia].
    + rewrite <- app_assoc. split; [reflexivity | lia].
Qed.

(** What [parseCSVData] does, in terms of the lines and the survivors. *)
Lemma parseCSVData_spec (csvText : string) :
  parseCSVData jsDate csvText =
  if (length (split newline csvText) <? 2)%nat then Throws EmptySourceError
  else match validRowsOf jsDate (tail (split newline csvText)) with
       | [] => Throws NoValidRowsError
       | rows => Returns rows
       end.
Proof.
  unfold parseCSVData, parseCSVData_try.
  destruct (length (split newline csvText) <? 2)%nat; [reflexivity|].
  destruct (fold_parseStep (tail (split newline csvText)) (mkParseState [] 0 0))
    as [Hd Hv].
  rewrite Hv, Hd. simpl.
  destruct (validRowsOf jsDate (tail (split newline csvText))); reflexivity.
Qed.

(** A blank line has a single, empty column. *)
Lemma columns_blank (rawLine : string) :
  (7 <= length (columnsOf rawLine))%nat -> isEmpty (trim rawLine) = false.
Proof.
  unfold columnsOf. destruct (trim rawLine); simpl; [lia | reflexivity].
Qed.

(** The outcome of a row that is valid besides its date and price. *)
Lemma processLine_checked (rawLine : string) :
  validBesidesDateAndPrice rawLine ->
  priceField rawLine <> EmptyString ->
  processLine jsDate rawLine =
  match jsDate (dateField rawLine) with
  | None => Skipped
  | Some (fullYear, monthIndex) =>
      if (fullYear <? 2017) || (fullYear >? 2025) then Skipped
      else
        let rsp := priceOf (priceField rawLine) in
        if isNaN rsp || num_ltb rsp zero then Skipped
        else Valid (mkPoint (cityField rawLine) (productField rawLine)
                            fullYear (monthIndex + 1) (round2 rsp))
  end.
Proof.
  intros (Hlen & Hcity & Hprod & Hdate) Hprice.
  unfold processLine.
  rewrite (columns_blank rawLine Hlen).
  fold (columnsOf rawLine).
  destruct (Nat.ltb_spec (length (columnsOf rawLine)) 7) as [Hlt|_]; [lia|].
  fold (cityField rawLine) (productField rawLine) (priceField rawLine)
       (dateField rawLine).
  apply isEmpty_false in Hcity, Hdate, Hprice.
  assert (Hp : isEmpty (productField rawLine) = false)
    by (destruct Hprod as [-> | ->]; reflexivity).
  rewrite Hcity, Hp, Hprice, Hdate. simpl.
  assert (Hpd : negb (String.eqb (productField rawLine) "petrol")
                && negb (String.eqb (productField rawLine) "diesel") = false)
    by (destruct Hprod as [-> | ->]; reflexivity).
  rewrite Hpd.
  destruct (jsDate (dateField rawLine)) as [[fullYear monthIndex]|]; [|reflexivity].
  destruct ((fullYear <? 2017) || (fullYear >? 2025)); [reflexivity|].
  unfold priceOf.
  apply isEmpty_false in Hprice.
  destruct (String.eqb_spec (priceField rawLine) EmptyString) as [He|_]; [easy|].
  reflexivity.
Qed.

(** Every way to a stored record goes through all the checks. *)
Lemma processLine_Valid (rawLine : string) (point : RSPDataPoint) :
  processLine jsDate rawLine = Valid point ->
  validBesidesDateAndPrice rawLine
  /\ priceField rawLine <> EmptyString
  /\ exists fullYear monthIndex,
      jsDate (dateField rawLine) = Some (fullYear, monthIndex)
      /\ 2017 <= fullYear <= 2025
      /\ isNaN (priceOf (priceField rawLine)) = false
      /\ num_ltb (priceOf (priceField rawLine)) zero = false
      /\ point = mkPoint (cityField rawLine) (productField rawLine)
                         fullYear (monthIndex + 1)
                         (round2 (priceOf (priceField rawLine))).
Proof.
  intros H.
  assert (Hpre : validBesidesDateAndPrice rawLine /\ priceField rawLine <> EmptyString).
  { revert H. unfold processLine, validBesidesDateAndPrice.
    destruct (isEmpty (trim rawLine)); [discriminate|].
    fold (columnsOf rawLine).
    destruct (Nat.ltb_spec (length (columnsOf rawLine)) 7) as [|Hlen]; [discriminate|].
    fold (cityField rawLine) (productField rawLine) (priceField rawLine)
         (dateField rawLine).
    destruct (isEmpty (cityField rawLine)) eqn:Hc; [discriminate|].
    destruct (isEmpty (productField rawLine)) eqn:Hp; [discriminate|].
    destruct (isEmpty (priceField rawLine)) eqn:Hr; [discriminate|].
    destruct (isEmpty (dateField rawLine)) eqn:Hd; [discriminate|]. simpl.
    destruct (String.eqb_spec (productField rawLine) "petrol") as [Hpe|Hpe];
      destruct (String.eqb_spec (productField rawLine) "diesel") as [Hdi|Hdi];
      simpl; try discriminate; intros _;
      (split; [split; [exact Hlen|];
               split; [now apply isEmpty_false|];
               split; [auto|now apply isEmpty_false]
              | now apply isEmpty_false]). }
  destruct Hpre as [Hv Hprice]. split; [exact Hv|]. split; [exact Hprice|].
  rewrite (processLine_checked rawLine Hv Hprice) in H.
  destruct (jsDate (dateField rawLine)) as [[fullYear monthIndex]|]; [|discriminate].
  exists fullYear, monthIndex. split; [reflexivity|].
  destruct (Z.ltb_spec fullYear 2017); [discriminate|].
  destruct (Z.gtb_spec fullYear 2025); [discriminate|]. simpl in H.
  destruct (isNaN (priceOf (priceField rawLine))); [discriminate|].
  destruct (num_ltb (priceOf (priceField rawLine)) zero); [discriminate|].
  simpl in H. inversion H. repeat split; try reflexivity; lia.
Qed.

End NormalizerFacts.

Section NormalizerClaims.

(** C3: [parseCSVData] fails with the empty-source error when the text has
    fewer than two lines, so whenever it has no line feed, as a lone
    header has none; it fails with the no-valid-rows error when no data
    line survives validation; otherwise it returns the surviving rows in
    input order. *)
Theorem C3_parse_failures (jsDate : string -> option (Z * Z)) (csvText : string) :
  ((length (split newline csvText) < 2)%nat ->
   parseCSVData jsDate csvText = Throws EmptySourceError)
  /\ (hasChar newline csvText = false ->
      parseCSVData jsDate csvText = Throws EmptySourceError)
  /\ ((2 <= length (split newline csvText))%nat ->
      validRowsOf jsDate (tail (split newline csvText)) = [] ->
      parseCSVData jsDate csvText = Throws NoValidRowsError)
  /\ ((2 <= length (split newline csvText))%nat ->
      validRowsOf jsDate (tail (split newline csvText)) <> [] ->
      parseCSVData jsDate csvText
      = Returns (validRowsOf jsDate (tail (split newline csvText)))).
Proof.
  rewrite parseCSVData_spec.
  destruct (Nat.ltb_spec (length (split newline csvText)) 2) as [Hlt|Hge].
  - split; [reflexivity|]. split; [reflexivity|]. split; intros; lia.
  - split; [intros; lia|]. split.
    + intros Hnl. apply split_length_ge_2 in Hge. congruence.
    + split; intros _ Hrows.
      * now rewrite Hrows.
      * destruct (validRowsOf jsDate (tail (split newline csvText))); easy.
Qed.

Lemma C3_parse_failures_witness :
  parseCSVData isoDate sampleHeader = Throws EmptySourceError
  /\ parseCSVData isoDate (joinLines [sampleHeader; "India,2023,1,2023-01-15,LPG,Mumbai,50"])
     = Throws NoValidRowsError
  /\ parseCSVData isoDate (joinLines [sampleHeader; "India,2023,1,2023-01-15,Petrol,Mumbai,NA"])
     = Returns [mkPoint "Mumbai" "petrol" 2023 1 zero].
Proof.
  split; [|split].
  - destruct (C3_parse_failures isoDate sampleHeader) as (_ & H & _).
    apply H. reflexivity.
  - destruct (C3_parse_failures isoDate
                (joinLines [sampleHeader; "India,2023,1,2023-01-15,LPG,Mumbai,50"]))
      as (_ & _ & H & _).
    apply H; [vm_compute; lia | reflexivity].
  - destruct (C3_parse_failures isoDate
                (joinLines [sampleHeader; "India,2023,1,2023-01-15,Petrol,Mumbai,NA"]))
      as (_ & _ & _ & H).
    rewrite H; [reflexivity | vm_compute; lia | discriminate].
Defined.

(** A row whose year is below 2017 or above 2025 is never stored. *)
Lemma year_out_of_range_dropped (jsDate : string -> option (Z * Z))
      (rawLine : string) (fullYear monthIndex : Z) :
  jsDate (dateField rawLine) = Some (fullYear, monthIndex) ->
  fullYear < 2017 \/ 2025 < fullYear ->
  pointOf (processLine jsDate rawLine) = None.
Proof.
  intros Hdate Hout.
  destruct (processLine jsDate rawLine) as [| |point] eqn:Hrow; try reflexivity.
  apply processLine_Valid in Hrow as (_ & _ & y & m & Hd & Hy & _).
  rewrite Hdate in Hd. inversion Hd. lia.
Qed.

(** A row whose year is within 2017..2025 and that is valid in everything
    else is stored. *)
Lemma year_in_range_kept (jsDate : string -> option (Z * Z))
      (rawLine : string) (fullYear monthIndex : Z) :
  jsDate (dateField rawLine) = Some (fullYear, monthIndex) ->
  2017 <= fullYear <= 2025 ->
  validBesidesDateAndPrice rawLine ->
  acceptedPrice (priceField rawLine) ->
  processLine jsDate rawLine
  = Valid (mkPoint (cityField rawLine) (productField rawLine) fullYear
                   (monthIndex + 1) (round2 (priceOf (priceField rawLine)))).
Proof.
  intros Hdate Hy Hv [Hne Hprice].
  rewrite (processLine_checked jsDate rawLine Hv Hne), Hdate.
  destruct (Z.ltb_spec fullYear 2017); [lia|].
  destruct (Z.gtb_spec fullYear 2025); [lia|]. simpl.
  assert (Hok : isNaN (priceOf (priceField rawLine)) = false
                /\ num_ltb (priceOf (priceField rawLine)) zero = false).
  { unfold priceOf. destruct Hprice as [-> | [-> | [H1 H2]]]; try (split; reflexivity).
    destruct (_ || _); [split; reflexivity | now split]. }
  destruct Hok as [-> ->]. reflexivity.
Qed.

(** C8: a data row whose date parses to the year 2016 or 2026 is dropped,
    whatever its other fields; a row whose date parses to the year 2017 or
    2025 and whose other fields are valid is kept, as the record of its
    city, product, year, month and rounded price. *)
Theorem C8_year_bounds (jsDate : string -> option (Z * Z))
        (rawLine : string) (fullYear monthIndex : Z) :
  jsDate (dateField rawLine) = Some (fullYear, monthIndex) ->
  (fullYear = 2016 \/ fullYear = 2026 ->
   pointOf (processLine jsDate rawLine) = None)
  /\ (fullYear = 2017 \/ fullYear = 2025 ->
      validBesidesDateAndPrice rawLine ->
      acceptedPrice (priceField rawLine) ->
      processLine jsDate rawLine
      = Valid (mkPoint (cityField rawLine) (productField rawLine) fullYear
                       (monthIndex + 1) (round2 (priceOf (priceField rawLine))))).
Proof.
  intros Hdate. split.
  - intros Hy. apply (year_out_of_range_dropped jsDate rawLine fullYear monthIndex Hdate).
    lia.
  - intros Hy. apply (year_in_range_kept jsDate rawLine fullYear monthIndex Hdate).
    lia.
Qed.

Lemma C8_year_bounds_witness :
  pointOf (processLine isoDate "India,2016,12,2016-12-15,Petrol,Delhi,70.5") = None
  /\ pointOf (processLine isoDate "India,2026,1,2026-01-15,Petrol,Delhi,70.5") = None
  /\ processLine isoDate "India,2017,1,2017-01-15,Petrol,Delhi,70.5"
     = Valid (mkPoint "Delhi" "petrol" 2017 1 (decimal false 705 (-1)))
  /\ processLine isoDate "India,2025,12,2025-12-15,Diesel,Delhi,70.5"
     = Valid (mkPoint "Delhi" "diesel" 2025 12 (decimal false 705 (-1))).
Proof.
  split; [|split; [|split]].
  - apply (C8_year_bounds isoDate "India,2016,12,2016-12-15,Petrol,Delhi,70.5" 2016 11);
      [reflexivity | now left].
  - apply (C8_year_bounds isoDate "India,2026,1,2026-01-15,Petrol,Delhi,70.5" 2026 0);
      [reflexivity | now right].
  - destruct (C8_year_bounds isoDate "India,2017,1,2017-01-15,Petrol,Delhi,70.5" 2017 0)
      as [_ H]; [reflexivity|].
    rewrite H; [reflexivity | now left | | ].
    + repeat split; vm_compute; (lia || discriminate || auto).
    + split; [discriminate|]. right. right. split; reflexivity.
  - destruct (C8_year_bounds isoDate "India,2025,12,2025-12-15,Diesel,Delhi,70.5" 2025 11)
      as [_ H]; [reflexivity|].
    rewrite H; [reflexivity | now right | | ].
    + repeat split; vm_compute; (lia || discriminate || auto).
    + split; [discriminate|]. right. right. split; reflexivity.
Defined.

(** A row whose price field is empty is never stored. *)
Lemma empty_price_dropped (jsDate : string -> option (Z * Z)) (rawLine : string) :
  priceField rawLine = EmptyString ->
  pointOf (processLine jsDate rawLine) = None.
Proof.
  intros He.
  destruct (processLine jsDate rawLine) as [| |point] eqn:Hrow; try reflexivity.
  apply processLine_Valid in Hrow as (_ & Hne & _). contradiction.
Qed.

(** A row whose price field is a placeholder and that is valid in
    everything else is stored with price 0. *)
Lemma placeholder_price_kept (jsDate : string -> option (Z * Z))
      (rawLine : string) (fullYear monthIndex : Z) :
  jsDate (dateField rawLine) = Some (fullYear, monthIndex) ->
  2017 <= fullYear <= 2025 ->
  validBesidesDateAndPrice rawLine ->
  priceField rawLine = "NA" \/ priceField rawLine = "N/A" ->
  processLine jsDate rawLine
  = Valid (mkPoint (cityField rawLine) (productField rawLine) fullYear
                   (monthIndex + 1) zero).
Proof.
  intros Hdate Hy Hv Hna.
  rewrite (year_in_range_kept jsDate rawLine fullYear monthIndex Hdate Hy Hv).
  - destruct Hna as [-> | ->]; reflexivity.
  - destruct Hna as [-> | ->]; (split; [discriminate | auto]).
Qed.

(** C2, at the failing input: a row that is valid in everything but has an
    empty price field is skipped instead of being stored with price 0, for
    every date parser; a file whose only data row is that one fails with
    the no-valid-rows error. *)
Theorem C2_empty_price_row_is_dropped (jsDate : string -> option (Z * Z)) :
  validBesidesDateAndPrice "India,2023,1,2023-01-15,Petrol,Mumbai,"
  /\ priceField "India,2023,1,2023-01-15,Petrol,Mumbai," = EmptyString
  /\ processLine jsDate "India,2023,1,2023-01-15,Petrol,Mumbai," = Skipped
  /\ parseCSVData jsDate
       (joinLines [sampleHeader; "India,2023,1,2023-01-15,Petrol,Mumbai,"])
     = Throws NoValidRowsError.
Proof.
  split; [|split; [|split]]; try reflexivity.
  repeat split; vm_compute; (lia || discriminate || auto).
Qed.

(** C1, at the failing input: a row whose price field reads Infinity passes
    every check and is stored with an infinite price, which is not a
    number of hundredths. *)
Theorem C1_infinite_price_is_stored :
  parseCSVData isoDate
    (joinLines [sampleHeader; "India,2023,1,2023-01-15,Petrol,Mumbai,Infinity"])
  = Returns [mkPoint "Mumbai" "petrol" 2023 1 Infinity]
  /\ ~ validPoint (mkPoint "Mumbai" "petrol" 2023 1 Infinity).
Proof.
  split; [reflexivity|].
  intros (_ & _ & _ & _ & Hfin & _). discriminate Hfin.
Qed.

End NormalizerClaims.

(* ===================================================================== *)
(** * Properties of the aggregator *)
(* ===================================================================== *)

Section AggregatorFacts.

Lemma accumulate_length (acc : list number * list nat) (d : RSPDataPoint) :
  length (fst (accumulate acc d)) = length (fst acc)
  /\ length (snd (accumulate acc d)) = length (snd acc).
Proof.
  destruct acc as [T C]. unfold accumulate.
  destruct (_ && _); simpl; [|easy].
  now rewrite !length_insert.
Qed.

Lemma fold_accumulate_length (l : list RSPDataPoint) (acc : list number * list nat) :
  length (fst (fold_left accumulate l acc)) = length (fst acc)
  /\ length (snd (fold_left accumulate l acc)) = length (snd acc).
Proof.
  revert acc. induction l as [|d l IH]; intros acc; simpl; [easy|].
  destruct (IH (accumulate acc d)) as [H1 H2].
  destruct (accumulate_length acc d) as [H3 H4].
  split; congruence.
Qed.

(** One step of the loop, seen from the bucket [i]. *)
Lemma accumulate_bucket (T : list number) (C : list nat) (d : RSPDataPoint) (i : nat) :
  (i < length T)%nat -> (i < length C)%nat -> (i < 12)%nat ->
  default zero (fst (accumulate (T, C) d) !! i)
  = (if counted i d then num_add (default zero (T !! i)) (rsp d)
     else default zero (T !! i))
  /\ default O (snd (accumulate (T, C) d) !! i)
     = (if counted i d then S (default O (C !! i)) else default O (C !! i)).
Proof.
  intros HT HC Hi. unfold accumulate, counted.
  destruct (Z.leb_spec 1 (month d)) as [H1|H1]; simpl.
  2:{ destruct (Z.eqb_spec (month d) (Z.of_nat i + 1)); [lia | easy]. }
  destruct (Z.leb_spec (month d) 12) as [H2|H2]; simpl.
  2:{ destruct (Z.eqb_spec (month d) (Z.of_nat i + 1)); [lia | easy]. }
  destruct (isNaN (rsp d)); simpl.
  { now rewrite andb_false_r. }
  rewrite andb_true_r.
  destruct (Z.eqb_spec (month d) (Z.of_nat i + 1)) as [He|Hne].
  - replace (Z.to_nat (month d - 1)) with i by lia.
    rewrite !list_lookup_insert_eq by assumption. easy.
  - rewrite !list_lookup_insert_ne by lia. easy.
Qed.

(** The loop, seen from the bucket [i]: the prices of the counted records
    are added from left to right, and the records are counted. *)
Lemma fold_accumulate_bucket (l : list RSPDataPoint) (T : list number)
      (C : list nat) (i : nat) :
  (i < length T)%nat -> (i < length C)%nat -> (i < 12)%nat ->
  default zero (fst (fold_left accumulate l (T, C)) !! i)
  = fold_left num_add (List.map rsp (List.filter (counted i) l)) (default zero (T !! i))
  /\ default O (snd (fold_left accumulate l (T, C)) !! i)
     = (default O (C !! i) + length (List.filter (counted i) l))%nat.
Proof.
  revert T C. induction l as [|d l IH]; intros T C HT HC Hi; cbn [fold_left].
  - cbn. split; [reflexivity | lia].
  - destruct (accumulate_length (T, C) d) as [HlT HlC].
    destruct (accumulate_bucket T C d i HT HC Hi) as [HbT HbC].
    destruct (accumulate (T, C) d) as [T' C'] eqn:Hacc. cbn [fst snd] in *.
    destruct (IH T' C') as [H1 H2]; [lia | lia | assumption |].
    rewrite H1, H2, HbT, HbC. cbn [List.filter].
    destruct (counted i d); cbn [List.map fold_left length];
      split; (reflexivity || lia).
Qed.

Lemma filter_filter (p q : RSPDataPoint -> bool) (l : list RSPDataPoint) :
  List.filter q (List.filter p l) = List.filter (fun d => p d && q d) l.
Proof.
  induction l as [|d l IH]; simpl; [reflexivity|].
  destruct (p d); simpl; [destruct (q d)|]; now rewrite IH.
Qed.

Lemma filter_ext_Forall (p q : RSPDataPoint -> bool) (l : list RSPDataPoint) :
  Forall (fun d => p d = q d) l -> List.filter p l = List.filter q l.
Proof.
  induction 1 as [|d l Hd _ IH]; simpl; [reflexivity|].
  now rewrite Hd, IH.
Qed.

(** The nine years a query may name are exact Numbers. *)
Lemma year_number (y : Z) :
  2017 <= y <= 2025 ->
  yearRejected (JNum (num_of_Z y)) = false
  /\ isInteger (num_of_Z y) = true /\ toZ (num_of_Z y) = y.
Proof.
  intros Hy.
  assert (Hcases : y = 2017 \/ y = 2018 \/ y = 2019 \/ y = 2020 \/ y = 2021
                   \/ y = 2022 \/ y = 2023 \/ y = 2024 \/ y = 2025) by lia.
  repeat (destruct Hcases as [-> | Hcases]; [repeat split|]).
  subst y. repeat split.
Qed.

Lemma zeros_lookup (i : nat) : (i < 12)%nat -> zeros !! i = Some zero.
Proof. intros Hi. unfold zeros. now apply lookup_replicate_2. Qed.

(** [getMonthlyAverages] on arguments that pass the validation. *)
Lemma getMonthlyAverages_valid (items : list RSPDataPoint) (cityName fuel : string)
      (y : Z) (i : nat) :
  cityName <> EmptyString -> fuel = "petrol" \/ fuel = "diesel" ->
  2017 <= y <= 2025 -> (i < 12)%nat ->
  getMonthlyAverages (JArr items) (JStr cityName) (JStr fuel) (JNum (num_of_Z y)) !! i
  = Some (meanOf (List.filter (fun d => negb (isNaN (rsp d)))
                              (bucketOf items cityName fuel y i))).
Proof.
  intros Hc Hf Hy Hi.
  destruct (year_number y Hy) as (Hrej & Hint & HtoZ).
  unfold getMonthlyAverages, getMonthlyAverages_try.
  apply isEmpty_false in Hc. cbn [truthy isString negb orb].
  rewrite Hc. cbn [negb orb].
  assert (Hfuel : String.eqb fuel "petrol" || String.eqb fuel "diesel" = true)
    by (destruct Hf as [-> | ->]; reflexivity).
  assert (Hfne : isEmpty fuel = false) by (destruct Hf as [-> | ->]; reflexivity).
  cbn [includesFuel]. rewrite Hfne, Hfuel. cbn [negb orb]. rewrite Hrej.
  set (filteredData := List.filter _ items).
  assert (Hbucket : List.filter (counted i) filteredData
                    = List.filter (fun d => negb (isNaN (rsp d)))
                                  (bucketOf items cityName fuel y i)).
  { unfold filteredData, bucketOf. rewrite !filter_filter.
    apply filter_ext_Forall, Forall_forall. intros d _.
    unfold matches, strictEqStr, strictEqInt, counted. rewrite Hint, HtoZ.
    cbn [andb]. rewrite (Z.eqb_sym y (year d)).
    now rewrite !andb_assoc. }
  destruct (Nat.eqb_spec (length filteredData) 0) as [Hz|Hnz].
  - rewrite (zeros_lookup i Hi). rewrite <- Hbucket.
    destruct filteredData; [reflexivity | discriminate].
  - destruct (fold_accumulate_length filteredData (zeros, replicate 12 O)) as [HlT HlC].
    destruct (fold_accumulate_bucket filteredData zeros (replicate 12 O) i)
      as [HT HC]; [cbn; lia | cbn; lia | assumption |].
    destruct (fold_left accumulate filteredData (zeros, replicate 12 O))
      as [monthlyTotals monthlyCounts]. cbn [fst snd] in *.
    rewrite list_lookup_imap.
    destruct (lookup_lt_is_Some_2 monthlyTotals i) as [total Ht];
      [rewrite HlT; cbn; lia|].
    rewrite Ht in HT. cbn [default from_option id] in HT. rewrite Ht. cbn [fmap option_fmap option_map].
    f_equal. unfold average. rewrite HC, Hbucket.
    rewrite (zeros_lookup i Hi) in HT. cbn [default from_option id] in HT.
    rewrite lookup_replicate_2 by assumption. cbn [default from_option id Nat.add].
    rewrite HT, Hbucket. unfold meanOf.
    destruct (List.filter _ (bucketOf items cityName fuel y i)); reflexivity.
Qed.

End AggregatorFacts.

Section AggregatorClaims.

Lemma filter_all (p : RSPDataPoint -> bool) (l : list RSPDataPoint) :
  Forall (fun d => p d = true) l -> List.filter p l = l.
Proof.
  induction 1 as [|d l Hd _ IH]; simpl; [reflexivity|].
  now rewrite Hd, IH.
Qed.

Lemma Forall_filter_keep (P : RSPDataPoint -> Prop) (p : RSPDataPoint -> bool)
      (l : list RSPDataPoint) :
  Forall P l -> Forall P (List.filter p l).
Proof.
  induction 1 as [|d l Hd _ IH]; simpl; [constructor|].
  destruct (p d); [now constructor | assumption].
Qed.

(** Whatever the arguments, the [try] block returns twelve values when it
    returns. *)
Lemma getMonthlyAverages_try_length (data city fuelType year : jsval)
      (series : list number) :
  getMonthlyAverages_try data city fuelType year = Returns series ->
  length series = 12%nat.
Proof.
  unfold getMonthlyAverages_try.
  destruct data as [| | | | |items]; try discriminate.
  destruct (negb (truthy city) || negb (isString city)); [discriminate|].
  destruct (negb (truthy fuelType) || negb (includesFuel fuelType)); [discriminate|].
  destruct (yearRejected year); [discriminate|].
  set (filteredData := List.filter _ items).
  destruct (length filteredData =? 0)%nat.
  - intros H. inversion H. reflexivity.
  - destruct (fold_accumulate_length filteredData (zeros, replicate 12 O)) as [HlT _].
    destruct (fold_left accumulate filteredData (zeros, replicate 12 O))
      as [monthlyTotals monthlyCounts].
    intros H. inversion H. rewrite length_imap. exact HlT.
Qed.

(** C4: [getMonthlyAverages] is total: for all arguments it returns a series
    of twelve Numbers.  When the data is no array, the city is no string
    or is empty, the fuel type is neither petrol nor diesel, or the year
    is no Number, no integer or outside 2017..2025, the [try] block
    throws and the result is the series of twelve zeros; so it is for the
    empty city. *)
Theorem C4_never_raises (data city fuelType year : jsval) :
  length (getMonthlyAverages data city fuelType year) = 12%nat
  /\ (notArray data \/ badCity city \/ badFuel fuelType \/ badYear year ->
      (exists message, getMonthlyAverages_try data city fuelType year = Throws message)
      /\ getMonthlyAverages data city fuelType year = replicate 12 zero)
  /\ getMonthlyAverages data (JStr EmptyString) fuelType year = replicate 12 zero.
Proof.
  split; [|split].
  - unfold getMonthlyAverages.
    destruct (getMonthlyAverages_try data city fuelType year) as [series|message] eqn:Htry.
    + now apply (getMonthlyAverages_try_length data city fuelType year).
    + reflexivity.
  - intros Hbad.
    assert (Hthrows : exists message,
               getMonthlyAverages_try data city fuelType year = Throws message).
    { unfold getMonthlyAverages_try.
      destruct data as [| | | | |items]; try (eexists; reflexivity).
      destruct (negb (truthy city) || negb (isString city)) eqn:Hcity;
        [eexists; reflexivity|].
      destruct (negb (truthy fuelType) || negb (includesFuel fuelType)) eqn:Hfuel;
        [eexists; reflexivity|].
      destruct (yearRejected year) eqn:Hyear; [eexists; reflexivity|].
      exfalso.
      destruct Hbad as [Hd | [Hc | [Hf | Hy]]].
      - now apply (Hd items).
      - destruct Hc as [Hc | ->]; [|discriminate].
        destruct city as [| | | |s|]; cbn [isString negb] in Hcity;
          rewrite ?orb_true_r in Hcity; try discriminate.
        now apply (Hc s).
      - destruct Hf as [Hf1 Hf2].
        destruct fuelType as [| | | |s|]; cbn [includesFuel negb] in Hfuel;
          rewrite ?orb_true_r in Hfuel; try discriminate.
        apply orb_false_iff in Hfuel as [_ Hinc].
        apply negb_false_iff in Hinc. simpl in Hinc.
        apply orb_true_iff in Hinc as [He | He]; apply String.eqb_eq in He;
          subst s; [now apply Hf1 | now apply Hf2].
      - destruct Hy as [Hy | (x & -> & Hx)].
        + destruct year as [| | |x| |]; try discriminate. now apply (Hy x).
        + unfold yearRejected in Hyear.
          apply orb_false_iff in Hyear as [Hyear Hgt].
          apply orb_false_iff in Hyear as [Hint Hlt].
          apply negb_false_iff in Hint.
          destruct Hx as [Hx | [Hx | Hx]]; congruence. }
    split; [exact Hthrows|].
    destruct Hthrows as [message Hthrows].
    unfold getMonthlyAverages. now rewrite Hthrows.
  - unfold getMonthlyAverages, getMonthlyAverages_try.
    destruct data; reflexivity.
Qed.

Lemma C4_never_raises_witness :
  getMonthlyAverages (JArr [mkPoint "Mumbai" "petrol" 2023 1 (num_of_Z 100)])
                     (JStr "Mumbai") (JStr "petrol") (JNum (decimal false 20235 (-1)))
  = replicate 12 zero.
Proof.
  destruct (C4_never_raises
              (JArr [mkPoint "Mumbai" "petrol" 2023 1 (num_of_Z 100)])
              (JStr "Mumbai") (JStr "petrol") (JNum (decimal false 20235 (-1))))
    as (_ & H & _).
  apply H. right. right. right. right.
  exists (decimal false 20235 (-1)). split; [reflexivity|]. left. reflexivity.
Defined.

End AggregatorClaims.

(* ===================================================================== *)
(** * Properties of binary64 arithmetic *)
(* ===================================================================== *)

Section FloatFacts.

Lemma digits2_pos_size (p : positive) : digits2_pos p = Pos.size p.
Proof. induction p as [p IH|p IH|]; simpl; now rewrite ?IH. Qed.

Lemma digits_log2 (p : positive) : Zpos (digits2_pos p) = Z.log2 (Zpos p) + 1.
Proof.
  rewrite digits2_pos_size.
  destruct p as [p|p|]; simpl; try reflexivity; now rewrite Pos2Z.inj_succ.
Qed.

Lemma digits_pos (p : positive) : 1 <= Zpos (digits2_pos p).
Proof. lia. Qed.

Lemma Zdigits2_nonneg (m : Z) : 0 <= Zdigits2 m.
Proof. destruct m; simpl; lia. Qed.

(** [m < 2^k] bounds the number of digits by [k]. *)
Lemma digits_le_of_lt_pow2 (p : positive) (k : Z) :
  0 <= k -> Zpos p < 2 ^ k -> Zpos (digits2_pos p) <= k.
Proof.
  intros Hk Hlt. rewrite digits_log2.
  assert (Z.log2 (Zpos p) < k) by (apply Z.log2_lt_pow2; lia). lia.
Qed.

Lemma lt_pow2_digits (p : positive) : Zpos p < 2 ^ Zpos (digits2_pos p).
Proof.
  rewrite digits_log2.
  pose proof (Z.log2_spec (Zpos p)) as H.
  replace (Z.log2 (Zpos p) + 1) with (Z.succ (Z.log2 (Zpos p))) by lia. lia.
Qed.

Lemma Zdigits2_succ (m : Z) : 0 <= m -> Zdigits2 (m + 1) <= Zdigits2 m + 1.
Proof.
  intros Hm. destruct m as [|p|p]; [simpl; lia | | lia].
  replace (Zpos p + 1) with (Zpos (Pos.succ p)) by lia. simpl.
  induction p as [p IH|p IH|]; simpl in *; lia.
Qed.

Lemma digits_mul (p q : positive) :
  Zpos (digits2_pos (p * q)) <= Zpos (digits2_pos p) + Zpos (digits2_pos q).
Proof.
  rewrite !digits_log2, Pos2Z.inj_mul.
  pose proof (Z.log2_mul_above (Zpos p) (Zpos q)). lia.
Qed.

Lemma digits_iter_xO (p d : positive) :
  Zpos (digits2_pos (Pos.iter xO p d)) = Zpos (digits2_pos p) + Zpos d.
Proof.
  induction d as [|d IH] using Pos.peano_ind.
  - simpl. lia.
  - rewrite Pos.iter_succ. simpl. lia.
Qed.

Lemma Zpos_iter_xO (p d : positive) :
  Zpos (Pos.iter xO p d) = Zpos p * 2 ^ Zpos d.
Proof.
  induction d as [|d IH] using Pos.peano_ind.
  - simpl. lia.
  - rewrite Pos.iter_succ, Pos2Z.inj_xO, IH, Pos2Z.inj_succ, Z.pow_succ_r by lia. lia.
Qed.

(** ** Shifting a mantissa to the right *)

Lemma shr_1_digits (mrs : shr_record) :
  0 <= shr_m mrs ->
  0 <= shr_m (shr_1 mrs)
  /\ Zdigits2 (shr_m (shr_1 mrs)) = Z.max 0 (Zdigits2 (shr_m mrs) - 1).
Proof.
  destruct mrs as [m r s]. simpl. intros Hm.
  destruct m as [|p|p]; [simpl; lia | | lia].
  destruct p; simpl; lia.
Qed.

Lemma iter_shr_1_digits (n : positive) (mrs : shr_record) :
  0 <= shr_m mrs ->
  0 <= shr_m (SpecFloat.iter_pos shr_1 n mrs)
  /\ Zdigits2 (shr_m (SpecFloat.iter_pos shr_1 n mrs))
     = Z.max 0 (Zdigits2 (shr_m mrs) - Zpos n).
Proof.
  revert mrs. induction n as [n IH|n IH|]; intros mrs Hm; simpl.
  - destruct (shr_1_digits mrs Hm) as [H1 E1].
    destruct (IH _ H1) as [H2 E2]. destruct (IH _ H2) as [H3 E3].
    split; [assumption|]. rewrite E3, E2, E1. lia.
  - destruct (IH _ Hm) as [H2 E2]. destruct (IH _ H2) as [H3 E3].
    split; [assumption|]. rewrite E3, E2. lia.
  - apply shr_1_digits, Hm.
Qed.

Lemma shr_record_of_loc_m (m : Z) (l : location) :
  shr_m (shr_record_of_loc m l) = m.
Proof. destruct l as [|[]]; reflexivity. Qed.

(** The mantissa and the exponent after the shift that [shr_fexp] does. *)
Lemma shr_fexp_spec (m e : Z) (l : location) (mrs : shr_record) (e' : Z) :
  0 <= m -> shr_fexp prec emax m e l = (mrs, e') ->
  0 <= shr_m mrs
  /\ Zdigits2 (shr_m mrs) <= 53
  /\ e' = Z.max e (fexp prec emax (Zdigits2 m + e))
  /\ Zdigits2 (shr_m mrs) + e' <= Z.max (Zdigits2 m + e) e'
  /\ (shr_m mrs = 0 \/ Zdigits2 (shr_m mrs) + e' = Zdigits2 m + e).
Proof.
  intros Hm. unfold shr_fexp, shr.
  pose proof (Zdigits2_nonneg m) as Hd.
  assert (Hf : fexp prec emax (Zdigits2 m + e) = Z.max (Zdigits2 m + e - 53) (-1074))
    by reflexivity.
  destruct (fexp prec emax (Zdigits2 m + e) - e) as [|n|n] eqn:Hn;
    intros H; inversion H; subst; clear H.
  - rewrite shr_record_of_loc_m. repeat split; lia.
  - destruct (iter_shr_1_digits n (shr_record_of_loc m l)) as [H1 E1];
      [rewrite shr_record_of_loc_m; lia|].
    rewrite shr_record_of_loc_m in E1.
    split; [assumption|]. rewrite E1.
    assert (Hz : Z.max 0 (Zdigits2 m - Zpos n) = 0
                 -> shr_m (SpecFloat.iter_pos shr_1 n (shr_record_of_loc m l)) = 0).
    { intros Hz. rewrite Hz in E1.
      destruct (shr_m (SpecFloat.iter_pos shr_1 n (shr_record_of_loc m l))); simpl in E1; lia. }
    repeat split; lia.
  - rewrite shr_record_of_loc_m. repeat split; lia.
Qed.

Lemma round_nearest_even_cases (m : Z) (l : location) :
  round_nearest_even m l = m \/ round_nearest_even m l = m + 1.
Proof.
  destruct l as [|[]]; simpl; auto.
  destruct (Z.even m); auto.
Qed.

(** ** Rounding *)

(** [binary_round_aux] on a mantissa and exponent that stand for a
    magnitude below [2^k] returns a zero or a finite Number of the given
    sign, below [2^(k+1)], with an exponent no smaller than the one
    given. *)
Lemma binary_round_aux_small (s : bool) (mx ex : Z) (lx : location) (k : Z) :
  0 <= mx -> Zdigits2 mx + ex <= k -> -1074 <= k <= 971 ->
  binary_round_aux prec emax s mx ex lx = S754_zero s
  \/ exists m e,
      binary_round_aux prec emax s mx ex lx = S754_finite s m e
      /\ Zpos (digits2_pos m) <= 53 /\ Zpos (digits2_pos m) + e <= k + 1 /\ ex <= e.
Proof.
  intros Hmx Hk Hrange. unfold binary_round_aux.
  pose proof (Zdigits2_nonneg mx) as Hdx.
  destruct (shr_fexp prec emax mx ex lx) as [mrs' e'] eqn:H1.
  apply shr_fexp_spec in H1 as (Hm1 & Hd1 & He1 & Hb1 & _); [|assumption].
  set (m2 := round_nearest_even (shr_m mrs') (loc_of_shr_record mrs')).
  assert (Hm2 : 0 <= m2 /\ Zdigits2 m2 <= Zdigits2 (shr_m mrs') + 1).
  { unfold m2.
    destruct (round_nearest_even_cases (shr_m mrs') (loc_of_shr_record mrs')) as [-> | ->].
    - lia.
    - split; [lia | now apply Zdigits2_succ]. }
  destruct Hm2 as [Hm2 Hd2].
  destruct (shr_fexp prec emax m2 e' loc_Exact) as [mrs'' e''] eqn:H2.
  apply shr_fexp_spec in H2 as (Hm3 & Hd3 & He3 & Hb3 & _); [|assumption].
  assert (Hf1 : fexp prec emax (Zdigits2 mx + ex) = Z.max (Zdigits2 mx + ex - 53) (-1074))
    by reflexivity.
  assert (Hf2 : fexp prec emax (Zdigits2 m2 + e') = Z.max (Zdigits2 m2 + e' - 53) (-1074))
    by reflexivity.
  destruct (shr_m mrs'') as [|m|m] eqn:Hm; [now left | | lia].
  right. exists m, e''. simpl in Hd3, Hb3.
  destruct (Z.leb_spec e'' (emax - prec)) as [Hle|Hgt].
  - repeat split; lia.
  - unfold emax, prec in Hgt. lia.
Qed.

(** A mantissa that already fits its exponent is returned as it is. *)
Lemma binary_round_aux_exact (s : bool) (m : positive) (e : Z) :
  fexp prec emax (Zpos (digits2_pos m) + e) = e -> e <= 971 ->
  binary_round_aux prec emax s (Zpos m) e loc_Exact = S754_finite s m e.
Proof.
  intros Hf He. unfold binary_round_aux, shr_fexp. simpl Zdigits2.
  rewrite Hf, Z.sub_diag. simpl. rewrite Hf, Z.sub_diag. simpl.
  destruct (Z.leb_spec e (emax - prec)) as [_|Hgt]; [reflexivity|].
  unfold emax, prec in Hgt. lia.
Qed.

(** ** Small Numbers *)

Lemma smallb_zero (k : Z) (s : bool) : smallb k (S754_zero s) = true.
Proof. reflexivity. Qed.

Lemma smallb_finite (k : Z) (s : bool) (m : positive) (e : Z) :
  smallb k (S754_finite s m e) = true
  <-> Zpos (digits2_pos m) <= 53 /\ Zpos (digits2_pos m) + e <= k.
Proof. unfold smallb. rewrite andb_true_iff, !Z.leb_le. reflexivity. Qed.

Lemma smallb_inv (k : Z) (x : number) :
  smallb k x = true ->
  x = S754_zero (signOf x)
  \/ exists m e, x = S754_finite (signOf x) m e
                 /\ Zpos (digits2_pos m) <= 53 /\ Zpos (digits2_pos m) + e <= k.
Proof.
  destruct x as [s|s| |s m e]; try discriminate; intros H.
  - now left.
  - right. exists m, e. apply smallb_finite in H. now split.
Qed.

Lemma smallb_mono (k k' : Z) (x : number) :
  k <= k' -> smallb k x = true -> smallb k' x = true.
Proof.
  intros Hk. destruct x as [s|s| |s m e]; try easy.
  rewrite !smallb_finite. lia.
Qed.

Lemma smallb_isFinite (k : Z) (x : number) : smallb k x = true -> isFinite x = true.
Proof. destruct x; easy. Qed.

(** The result of [binary_round_aux], as a small Number of known sign. *)
Lemma binary_round_aux_smallb (s : bool) (mx ex : Z) (lx : location) (k : Z) :
  0 <= mx -> Zdigits2 mx + ex <= k -> -1074 <= k <= 971 ->
  smallb (k + 1) (binary_round_aux prec emax s mx ex lx) = true
  /\ signOf (binary_round_aux prec emax s mx ex lx) = s.
Proof.
  intros Hmx Hk Hrange.
  destruct (binary_round_aux_small s mx ex lx k Hmx Hk Hrange)
    as [-> | (m & e & -> & Hd & Hb & _)].
  - split; reflexivity.
  - split; [|reflexivity]. now apply smallb_finite.
Qed.

Lemma shl_align_digits (mx : positive) (ex ex' : Z) :
  Zpos (digits2_pos (fst (shl_align mx ex ex'))) + snd (shl_align mx ex ex')
  = Zpos (digits2_pos mx) + ex.
Proof.
  unfold shl_align. destruct (ex' - ex) as [|d|d] eqn:Hd; simpl; try reflexivity.
  rewrite digits_iter_xO. lia.
Qed.

Lemma shl_align_value (mx : positive) (ex ez : Z) :
  ez <= ex ->
  Zpos (fst (shl_align mx ex ez)) = Zpos mx * 2 ^ (ex - ez).
Proof.
  intros Hle. unfold shl_align. destruct (ez - ex) as [|d|d] eqn:Hd; simpl.
  - replace (ex - ez) with 0 by lia. simpl. lia.
  - lia.
  - rewrite Zpos_iter_xO. f_equal. f_equal. lia.
Qed.

Lemma binary_round_smallb (s : bool) (m : positive) (e k : Z) :
  Zpos (digits2_pos m) + e <= k -> -1074 <= k <= 971 ->
  smallb (k + 1) (binary_round prec emax s m e) = true
  /\ signOf (binary_round prec emax s m e) = s.
Proof.
  intros Hk Hrange. unfold binary_round.
  pose proof (shl_align_digits m e (fexp prec emax (Zpos (digits2_pos m) + e))) as Hd.
  destruct (shl_align m e (fexp prec emax (Zpos (digits2_pos m) + e))) as [mz ez].
  simpl in Hd.
  apply binary_round_aux_smallb; simpl; lia.
Qed.

Lemma binary_normalize_smallb (m e : Z) (szero : bool) (k : Z) :
  Zdigits2 m + e <= k -> -1074 <= k <= 971 ->
  smallb (k + 1) (binary_normalize prec emax m e szero) = true.
Proof.
  intros Hk Hrange. destruct m as [|p|p]; simpl in *.
  - reflexivity.
  - now apply binary_round_smallb.
  - now apply binary_round_smallb.
Qed.

(** [|m| < 2^j] bounds the number of digits of [m] by [j]. *)
Lemma Zdigits2_le_of_abs_lt (m j : Z) :
  0 <= j -> Z.abs m < 2 ^ j -> Zdigits2 m <= j.
Proof.
  intros Hj Hm. destruct m as [|p|p]; simpl in *.
  - assumption.
  - now apply digits_le_of_lt_pow2.
  - now apply digits_le_of_lt_pow2.
Qed.

(** ** Multiplication *)

Lemma num_mul_small (x y : number) (kx ky : Z) :
  smallb kx x = true -> smallb ky y = true -> -1074 <= kx + ky <= 971 ->
  smallb (kx + ky + 1) (num_mul x y) = true
  /\ signOf (num_mul x y) = xorb (signOf x) (signOf y).
Proof.
  intros Hx Hy Hrange.
  destruct x as [sx|sx| |sx mx ex]; try discriminate;
    destruct y as [sy|sy| |sy my ey]; try discriminate;
    try (split; reflexivity).
  apply smallb_finite in Hx, Hy.
  unfold num_mul, SFmul.
  apply binary_round_aux_smallb; [lia | | lia].
  simpl. pose proof (digits_mul mx my). lia.
Qed.

(** ** Addition and subtraction *)

Lemma aligned_lt (mx : positive) (ex ez k : Z) :
  ez <= ex -> Zpos (digits2_pos mx) + ex <= k ->
  Zpos (fst (shl_align mx ex ez)) < 2 ^ (k - ez).
Proof.
  intros Hle Hk. rewrite (shl_align_value mx ex ez Hle).
  pose proof (lt_pow2_digits mx) as Hlt.
  pose proof (digits_pos mx) as Hpos.
  apply Z.lt_le_trans with (2 ^ Zpos (digits2_pos mx) * 2 ^ (ex - ez)).
  - apply Z.mul_lt_mono_pos_r; [apply Z.pow_pos_nonneg; lia | assumption].
  - rewrite <- Z.pow_add_r by lia. apply Z.pow_le_mono_r; lia.
Qed.

Lemma aligned_sum_digits (sx sy : bool) (mx my : positive) (ex ey k : Z) (sub : bool) :
  Zpos (digits2_pos mx) + ex <= k -> Zpos (digits2_pos my) + ey <= k ->
  Zdigits2 ((if sub then Z.sub else Z.add)
              (cond_Zopp sx (Zpos (fst (shl_align mx ex (Z.min ex ey)))))
              (cond_Zopp sy (Zpos (fst (shl_align my ey (Z.min ex ey))))))
  + Z.min ex ey <= k + 1.
Proof.
  intros Hx Hy.
  pose proof (aligned_lt mx ex (Z.min ex ey) k ltac:(lia) Hx) as Hax.
  pose proof (aligned_lt my ey (Z.min ex ey) k ltac:(lia) Hy) as Hay.
  pose proof (digits_pos mx). pose proof (digits_pos my).
  assert (Hpow : 2 ^ (k + 1 - Z.min ex ey) = 2 * 2 ^ (k - Z.min ex ey)).
  { replace (k + 1 - Z.min ex ey) with (Z.succ (k - Z.min ex ey)) by lia.
    apply Z.pow_succ_r. lia. }
  assert (Hd : forall M, Z.abs M < 2 ^ (k + 1 - Z.min ex ey) ->
                         Zdigits2 M + Z.min ex ey <= k + 1).
  { intros M HM. apply Zdigits2_le_of_abs_lt in HM; lia. }
  apply Hd. rewrite Hpow.
  destruct sub, sx, sy; simpl; lia.
Qed.

Lemma num_add_small (x y : number) (k : Z) :
  smallb k x = true -> smallb k y = true -> -1074 <= k <= 970 ->
  smallb (k + 2) (num_add x y) = true.
Proof.
  intros Hx Hy Hrange.
  destruct x as [sx|sx| |sx mx ex]; try discriminate;
    destruct y as [sy|sy| |sy my ey]; try discriminate.
  - destruct sx, sy; reflexivity.
  - unfold num_add, SFadd. apply (smallb_mono k); [lia | assumption].
  - unfold num_add, SFadd. apply (smallb_mono k); [lia | assumption].
  - apply smallb_finite in Hx, Hy. unfold num_add, SFadd.
    replace (k + 2) with (k + 1 + 1) by lia.
    apply binary_normalize_smallb; [|lia].
    apply (aligned_sum_digits sx sy mx my ex ey k false); lia.
Qed.

Lemma num_sub_small (x y : number) (k : Z) :
  smallb k x = true -> smallb k y = true -> -1074 <= k <= 970 ->
  smallb (k + 2) (num_sub x y) = true.
Proof.
  intros Hx Hy Hrange.
  destruct x as [sx|sx| |sx mx ex]; try discriminate;
    destruct y as [sy|sy| |sy my ey]; try discriminate.
  - destruct sx, sy; reflexivity.
  - unfold num_sub, SFsub. apply smallb_finite in Hy. apply smallb_finite. lia.
  - unfold num_sub, SFsub. apply (smallb_mono k); [lia | assumption].
  - apply smallb_finite in Hx, Hy. unfold num_sub, SFsub.
    replace (k + 2) with (k + 1 + 1) by lia.
    apply binary_normalize_smallb; [|lia].
    apply (aligned_sum_digits sx sy mx my ex ey k true); lia.
Qed.

(** ** Division *)

(** The quotient that [SFdiv_core_binary] hands to the rounding. *)
Lemma div_core_bound (mx my : positive) (ex ey : Z) (q e' : Z) (l : location) :
  SFdiv_core_binary prec emax (Zpos mx) ex (Zpos my) ey = (q, e', l) ->
  0 <= q
  /\ Zdigits2 q + e'
     <= Z.max (Zpos (digits2_pos mx) + ex - (Zpos (digits2_pos my) + ey) + 1) (-1073).
Proof.
  unfold SFdiv_core_binary. simpl Zdigits2.
  set (d1 := Zpos (digits2_pos mx)). set (d2 := Zpos (digits2_pos my)).
  assert (Hf : fexp prec emax (d1 + ex - (d2 + ey))
               = Z.max (d1 + ex - (d2 + ey) - 53) (-1074)) by reflexivity.
  set (e0 := Z.min (fexp prec emax (d1 + ex - (d2 + ey))) (ex - ey)).
  set (s := ex - ey - e0).
  assert (Hs : 0 <= s) by (unfold s, e0; lia).
  set (m' := match s with
             | Z0 => Zpos mx
             | Zpos _ => Z.shiftl (Zpos mx) s
             | Zneg _ => 0
             end).
  assert (Hm' : m' = Zpos mx * 2 ^ s).
  { unfold m'. destruct s as [|p|p] eqn:Es.
    - simpl. lia.
    - apply Z.shiftl_mul_pow2. lia.
    - lia. }
  pose proof (Z.div_eucl_eq m' (Zpos my) ltac:(lia)) as Heq.
  pose proof (Z.mod_pos_bound m' (Zpos my) ltac:(lia)) as Hmod.
  unfold Z.modulo in Hmod.
  destruct (Z.div_eucl m' (Zpos my)) as [q0 r0] eqn:Hdiv.
  intros H. inversion H. subst q0 e'. clear H.
  assert (Hq : q = m' / Zpos my).
  { unfold Z.div. now rewrite Hdiv. }
  assert (Hm'pos : 0 < m').
  { rewrite Hm'. apply Z.mul_pos_pos; [lia|]. apply Z.pow_pos_nonneg; lia. }
  assert (Hq0 : 0 <= q) by (rewrite Hq; apply Z.div_pos; lia).
  split; [assumption|].
  destruct q as [|pq|pq] eqn:Epq; [simpl; unfold e0; lia | | lia].
  simpl Zdigits2. rewrite digits_log2.
  assert (Hlog : Z.log2 (Zpos pq) <= Z.max 0 (Z.log2 m' - (d2 - 1))).
  { rewrite <- Z.log2_shiftr by assumption.
    apply Z.log2_le_mono. rewrite Z.shiftr_div_pow2 by (unfold d2; lia).
    rewrite Hq. apply Z.div_le_compat_l; [lia|].
    split; [apply Z.pow_pos_nonneg; unfold d2; lia|].
    unfold d2. rewrite digits_log2.
    replace (Z.log2 (Zpos my) + 1 - 1) with (Z.log2 (Zpos my)) by lia.
    apply Z.log2_spec. lia. }
  assert (Hlm : Z.log2 m' = s + Z.log2 (Zpos mx)).
  { rewrite Hm'. apply Z.log2_mul_pow2; lia. }
  assert (Hd1 : d1 = Z.log2 (Zpos mx) + 1) by apply digits_log2.
  unfold s, e0 in *. lia.
Qed.

(** Dividing a small Number by 100 gives a finite Number of the same
    sign. *)
Lemma num_div_100_finite (x : number) (k : Z) :
  smallb k x = true -> -1074 <= k <= 971 ->
  isFinite (num_div x (num_of_Z 100)) = true
  /\ signOf (num_div x (num_of_Z 100)) = signOf x.
Proof.
  intros Hx Hrange.
  change (num_of_Z 100) with (S754_finite false 7036874417766400 (-46)).
  destruct x as [sx|sx| |sx mx ex]; try discriminate.
  - simpl. now rewrite xorb_false_r.
  - apply smallb_finite in Hx. unfold num_div, SFdiv.
    destruct (SFdiv_core_binary prec emax (Zpos mx) ex 7036874417766400 (-46))
      as [[q e'] l] eqn:Hcore.
    apply div_core_bound in Hcore as [Hq Hb].
    change (Zpos (digits2_pos 7036874417766400)) with 53 in Hb.
    rewrite xorb_false_r.
    destruct (binary_round_aux_smallb sx q e' l (Z.max (k - 6) (-1073)))
      as [Hs Hsign]; [assumption | lia | lia |].
    split; [|assumption]. now apply smallb_isFinite in Hs.
Qed.

(** ** Integers *)

(** A positive integer of at most 52 digits is a Number exactly. *)
Lemma num_of_Z_pos_exact (p : positive) :
  Zpos (digits2_pos p) <= 52 ->
  exists d, Zpos d = 53 - Zpos (digits2_pos p)
            /\ num_of_Z (Zpos p) = S754_finite false (Pos.iter xO p d) (- Zpos d).
Proof.
  intros Hd. pose proof (digits_pos p) as Hpos.
  unfold num_of_Z, binary_normalize, binary_round.
  assert (Hf : fexp prec emax (Zpos (digits2_pos p) + 0) = Zpos (digits2_pos p) - 53).
  { unfold fexp, emin, prec, emax. lia. }
  rewrite Hf. unfold shl_align.
  destruct (Zpos (digits2_pos p) - 53 - 0) as [|d|d] eqn:Hsub; try lia.
  exists d. split; [lia|].
  replace (Zpos (digits2_pos p) - 53) with (- Zpos d) by lia.
  apply binary_round_aux_exact; [|lia].
  rewrite digits_iter_xO. unfold fexp, emin, prec, emax. lia.
Qed.

Lemma num_of_Z_pos_small (p : positive) (k : Z) :
  Zpos (digits2_pos p) <= k -> k <= 52 ->
  isInteger (num_of_Z (Zpos p)) = true
  /\ smallb k (num_of_Z (Zpos p)) = true
  /\ signOf (num_of_Z (Zpos p)) = false.
Proof.
  intros Hd Hk.
  destruct (num_of_Z_pos_exact p) as (d & Hdd & ->); [lia|].
  split; [|split; [|reflexivity]].
  - unfold isInteger.
    destruct (Z.leb_spec 0 (- Zpos d)) as [|_]; [lia|].
    rewrite Z.opp_involutive, Zpos_iter_xO.
    rewrite Z.mod_mul by (apply Z.pow_nonzero; lia). reflexivity.
  - apply smallb_finite. rewrite digits_iter_xO. lia.
Qed.

(** [Math.round] of a small Number that is not negative is an integral
    Number, small and not negative. *)
Lemma Math_round_small (x : number) (k : Z) :
  smallb k x = true -> signOf x = false -> 0 <= k <= 51 ->
  isInteger (Math_round x) = true
  /\ smallb (k + 1) (Math_round x) = true
  /\ signOf (Math_round x) = false.
Proof.
  intros Hx Hs Hk.
  destruct x as [sx|sx| |sx m e]; try discriminate; simpl in Hs; subst sx.
  - repeat split.
  - apply smallb_finite in Hx as [Hd Hb]. unfold Math_round.
    destruct (Z.leb_spec 0 e) as [He|He].
    + split; [|split; [|reflexivity]].
      * unfold isInteger. now destruct (Z.leb_spec 0 e); [|lia].
      * apply smallb_finite. lia.
    + simpl cond_Zopp.
      set (q := Z.shiftr (Zpos m + 2 ^ (- e - 1)) (- e)).
      assert (Hpow : 0 < 2 ^ (- e - 1)) by (apply Z.pow_pos_nonneg; lia).
      assert (Hq : 0 <= q < 2 ^ (k + 1)).
      { unfold q. rewrite Z.shiftr_div_pow2 by lia. split.
        - apply Z.div_pos; [lia | apply Z.pow_pos_nonneg; lia].
        - apply Z.div_lt_upper_bound; [apply Z.pow_pos_nonneg; lia|].
          rewrite <- Z.pow_add_r by lia.
          pose proof (lt_pow2_digits m) as Hm.
          assert (H1 : 2 ^ Zpos (digits2_pos m) <= 2 ^ (k - e))
            by (apply Z.pow_le_mono_r; lia).
          assert (H2 : 2 ^ (- e - 1) <= 2 ^ (k - e))
            by (apply Z.pow_le_mono_r; lia).
          replace (- e + (k + 1)) with (Z.succ (k - e)) by lia.
          rewrite Z.pow_succ_r by lia. lia. }
      destruct (Z.eqb_spec q 0) as [Hz|Hnz]; [repeat split|].
      destruct q as [|pq|pq]; [lia | | lia].
      apply num_of_Z_pos_small; [|lia].
      apply digits_le_of_lt_pow2; lia.
Qed.

(** [Math.max(0, v)] of a small Number is small and not negative. *)
Lemma Math_max_zero_small (v : number) (k : Z) :
  smallb k v = true ->
  smallb k (Math_max zero v) = true /\ signOf (Math_max zero v) = false.
Proof.
  intros Hv. destruct v as [s|s| |s m e]; try discriminate.
  - split; reflexivity.
  - destruct s; [split; reflexivity|]. split; [exact Hv | reflexivity].
Qed.

(** A finite Number with a clear sign bit is at least 0. *)
Lemma nonneg_of_sign (x : number) :
  isFinite x = true -> signOf x = false -> num_leb zero x = true.
Proof. destruct x as [s|s| |s m e]; try discriminate; simpl; intros _ ->; reflexivity. Qed.

(** Rounding a small Number that is not negative to two decimals gives a
    valid price. *)
Lemma round2_valid (x : number) (k : Z) :
  smallb k x = true -> signOf x = false -> -1074 <= k <= 43 ->
  validPrice (round2 x).
Proof.
  intros Hx Hs Hk. unfold round2.
  assert (H100 : smallb 7 (num_of_Z 100) = true) by reflexivity.
  destruct (num_mul_small x (num_of_Z 100) (Z.max k 0) 7) as [Hm Hms];
    [apply (smallb_mono k); [lia | assumption] | assumption | lia |].
  rewrite Hs in Hms. simpl in Hms.
  destruct (Math_round_small _ (Z.max k 0 + 7 + 1) Hm Hms) as (Hint & Hr & Hrs); [lia|].
  destruct (num_div_100_finite _ _ Hr) as [Hfin Hsign]; [lia|].
  rewrite Hrs in Hsign.
  split; [assumption|]. split; [now apply nonneg_of_sign|].
  eexists. split; [exact Hint | reflexivity].
Qed.

(** ** Signs, whatever the magnitude *)

(** Rounding a mantissa that is not negative never gives NaN, and keeps
    the sign it is given. *)
Lemma binary_round_aux_sign (s : bool) (mx ex : Z) (lx : location) :
  0 <= mx ->
  isNaN (binary_round_aux prec emax s mx ex lx) = false
  /\ signOf (binary_round_aux prec emax s mx ex lx) = s.
Proof.
  intros Hmx. unfold binary_round_aux.
  destruct (shr_fexp prec emax mx ex lx) as [mrs' e'] eqn:H1.
  apply shr_fexp_spec in H1 as (Hm1 & _); [|assumption].
  set (m2 := round_nearest_even (shr_m mrs') (loc_of_shr_record mrs')).
  assert (Hm2 : 0 <= m2).
  { unfold m2.
    destruct (round_nearest_even_cases (shr_m mrs') (loc_of_shr_record mrs'))
      as [-> | ->]; lia. }
  destruct (shr_fexp prec emax m2 e' loc_Exact) as [mrs'' e''] eqn:H2.
  apply shr_fexp_spec in H2 as (Hm3 & _); [|assumption].
  destruct (shr_m mrs'') as [|m|m]; [split; reflexivity | | lia].
  destruct (e'' <=? emax - prec); split; reflexivity.
Qed.

Lemma binary_round_sign (s : bool) (m : positive) (e : Z) :
  isNaN (binary_round prec emax s m e) = false
  /\ signOf (binary_round prec emax s m e) = s.
Proof.
  unfold binary_round.
  destruct (shl_align m e (fexp prec emax (Zpos (digits2_pos m) + e))) as [mz ez].
  apply binary_round_aux_sign. lia.
Qed.

(** [Math.round] keeps a Number that is at least 0 at least 0. *)
Lemma Math_round_nonneg (x : number) :
  isNaN x = false -> num_leb zero x = true ->
  isNaN (Math_round x) = false /\ num_leb zero (Math_round x) = true.
Proof.
  intros Hnan Hge.
  destruct x as [s|s| |s m e]; try discriminate; try (split; assumption).
  destruct s; [discriminate|]. unfold Math_round.
  destruct (0 <=? e); [split; reflexivity|].
  simpl cond_Zopp.
  set (q := Z.shiftr (Zpos m + 2 ^ (- e - 1)) (- e)).
  assert (Hq : 0 <= q).
  { unfold q. apply Z.shiftr_nonneg.
    assert (0 <= 2 ^ (- e - 1)) by (apply Z.pow_nonneg; lia). lia. }
  destruct (q =? 0); [split; reflexivity|].
  destruct q as [|pq|pq]; [split; reflexivity | | lia].
  unfold num_of_Z, binary_normalize.
  destruct (binary_round_sign false pq 0) as [Hn Hs].
  destruct (binary_round prec emax false pq 0) as [s'|s'| |s' m' e'];
    try discriminate; simpl in Hs; subst s'; split; reflexivity.
Qed.

(** Rounding to two decimals keeps a Number that is at least 0 (the
    infinity included) at least 0, and never gives NaN. *)
Lemma round2_nonneg (x : number) :
  isNaN x = false -> num_ltb x zero = false ->
  isNaN (round2 x) = false /\ num_leb zero (round2 x) = true.
Proof.
  intros Hnan Hlt. unfold round2.
  change (num_of_Z 100) with (S754_finite false 7036874417766400 (-46)).
  assert (Hmul : isNaN (num_mul x (S754_finite false 7036874417766400 (-46))) = false
                 /\ num_leb zero (num_mul x (S754_finite false 7036874417766400 (-46)))
                    = true).
  { destruct x as [s|s| |s m e]; try discriminate.
    - split; reflexivity.
    - destruct s; [discriminate | split; reflexivity].
    - destruct s; [discriminate|]. unfold num_mul, SFmul.
      destruct (binary_round_aux_sign (xorb false false)
                  (Zpos (m * 7036874417766400)) (e + -46) loc_Exact) as [Hn Hs]; [lia|].
      destruct (binary_round_aux prec emax (xorb false false)
                  (Zpos (m * 7036874417766400)) (e + -46) loc_Exact)
        as [s'|s'| |s' m' e']; try discriminate; simpl in Hs; subst s';
        split; reflexivity. }
  destruct Hmul as [Hn1 Hge1].
  destruct (Math_round_nonneg _ Hn1 Hge1) as [Hn2 Hge2].
  destruct (Math_round (num_mul x (S754_finite false 7036874417766400 (-46))))
    as [s|s| |s m e]; try discriminate.
  - split; reflexivity.
  - destruct s; [discriminate | split; reflexivity].
  - destruct s; [discriminate|]. unfold num_div, SFdiv.
    destruct (SFdiv_core_binary prec emax (Zpos m) e 7036874417766400 (-46))
      as [[q e'] l] eqn:Hcore.
    apply div_core_bound in Hcore as [Hq _].
    destruct (binary_round_aux_sign (xorb false false) q e' l Hq) as [Hn Hs].
    destruct (binary_round_aux prec emax (xorb false false) q e' l)
      as [s'|s'| |s' m' e2]; try discriminate; simpl in Hs; subst s';
      split; reflexivity.
Qed.

(** ** [Math.random()] *)

Lemma compare_cont_Lt (p q : positive) :
  Pos.compare_cont Eq p q = Lt -> Zpos p < Zpos q.
Proof. intros H. apply Pos2Z.pos_lt_pos. exact H. Qed.

Lemma unitInterval_small (r : number) : unitInterval r -> smallb 0 r = true.
Proof.
  intros (Hvalid & Hge & Hlt).
  change (num_of_Z 1) with (S754_finite false 4503599627370496 (-52)) in Hlt.
  destruct r as [s|s| |s m e]; try reflexivity.
  - destruct s; discriminate.
  - discriminate.
  - destruct s; [discriminate|].
    simpl in Hvalid. unfold bounded, canonical_mantissa in Hvalid.
    apply andb_true_iff in Hvalid as [Hcan _]. apply Z.eqb_eq in Hcan.
    unfold fexp, emin, prec, emax in Hcan.
    unfold num_ltb, SFltb, SFcompare in Hlt.
    apply smallb_finite.
    destruct (Z.compare_spec e (-52)) as [He|He|He]; try discriminate.
    + destruct (Pos.compare_cont Eq m 4503599627370496) eqn:Hm; try discriminate.
      apply compare_cont_Lt in Hm.
      assert (Zpos (digits2_pos m) <= 52).
      { apply digits_le_of_lt_pow2; [lia|].
        replace (2 ^ 52) with 4503599627370496 by reflexivity. lia. }
      lia.
    + lia.
Qed.

End FloatFacts.

(* ===================================================================== *)
(** * Rounding to two decimals *)
(* ===================================================================== *)

Section RoundingFacts.

(** At most one integer is nearest to a Number. *)
Lemma nearestInteger_unique (x : number) (n n' : Z) :
  nearestInteger x n -> nearestInteger x n' -> n = n'.
Proof.
  destruct x as [s|s| |s m e]; simpl; try tauto; [lia|].
  assert (HP : 0 < 2 ^ Z.max (- e) 0) by (apply Z.pow_pos_nonneg; lia).
  revert HP. generalize (2 ^ Z.max (- e) 0) as P.
  generalize (cond_Zopp s (Zpos m) * 2 ^ Z.max e 0) as A.
  intros A P HP H1 H2. nia.
Qed.

(** A finite result of the rounding has a mantissa of at most 53 digits. *)
Lemma binary_round_aux_digits (s : bool) (mx ex : Z) (lx : location)
      (s' : bool) (m : positive) (e : Z) :
  0 <= mx ->
  binary_round_aux prec emax s mx ex lx = S754_finite s' m e ->
  Zpos (digits2_pos m) <= 53.
Proof.
  intros Hmx. unfold binary_round_aux.
  destruct (shr_fexp prec emax mx ex lx) as [mrs' e'] eqn:H1.
  apply shr_fexp_spec in H1 as (Hm1 & _); [|assumption].
  set (m2 := round_nearest_even (shr_m mrs') (loc_of_shr_record mrs')).
  assert (Hm2 : 0 <= m2).
  { unfold m2.
    destruct (round_nearest_even_cases (shr_m mrs') (loc_of_shr_record mrs'))
      as [-> | ->]; lia. }
  destruct (shr_fexp prec emax m2 e' loc_Exact) as [mrs'' e''] eqn:H2.
  apply shr_fexp_spec in H2 as (Hm3 & Hd3 & _); [|assumption].
  destruct (shr_m mrs'') as [|m0|m0]; [discriminate | | lia].
  destruct (e'' <=? emax - prec); [|discriminate].
  intros H. inversion H. subst. exact Hd3.
Qed.

Lemma num_mul_digits (x y : number) (s : bool) (m : positive) (e : Z) :
  num_mul x y = S754_finite s m e -> Zpos (digits2_pos m) <= 53.
Proof.
  destruct x as [sx|sx| |sx mx ex]; destruct y as [sy|sy| |sy my ey];
    try discriminate.
  unfold num_mul, SFmul. apply binary_round_aux_digits. lia.
Qed.

(** An integer of at most 53 digits is a Number exactly. *)
Lemma binary_round_integer (s : bool) (p : positive) :
  Zpos (digits2_pos p) <= 53 ->
  integerValue (binary_round prec emax s p 0) (cond_Zopp s (Zpos p)).
Proof.
  intros Hd. pose proof (digits_pos p) as Hpos.
  unfold binary_round.
  assert (Hf : fexp prec emax (Zpos (digits2_pos p) + 0) = Zpos (digits2_pos p) - 53).
  { unfold fexp, emin, prec, emax. lia. }
  rewrite Hf. unfold shl_align.
  destruct (Zpos (digits2_pos p) - 53 - 0) as [|d|d] eqn:Hsub; try lia.
  - replace (Zpos (digits2_pos p) - 53) with 0 by lia.
    rewrite binary_round_aux_exact; [|unfold fexp, emin, prec, emax; lia | lia].
    reflexivity.
  - replace (Zpos (digits2_pos p) - 53) with (- Zpos d) by lia.
    rewrite binary_round_aux_exact;
      [|rewrite digits_iter_xO; unfold fexp, emin, prec, emax; lia | lia].
    unfold integerValue. rewrite Zpos_iter_xO.
    replace (Z.max (- Zpos d) 0) with 0 by lia.
    replace (Z.max (- - Zpos d) 0) with (Zpos d) by lia.
    destruct s; simpl cond_Zopp; rewrite Z.pow_0_r; lia.
Qed.

Lemma num_of_Z_integer (n : Z) :
  Zdigits2 n <= 53 -> integerValue (num_of_Z n) n.
Proof.
  intros Hd. destruct n as [|p|p].
  - reflexivity.
  - apply (binary_round_integer false p Hd).
  - apply (binary_round_integer true p Hd).
Qed.

(** [Math.round] gives the nearest integer, a half going up. *)
Lemma Math_round_nearest (x : number) :
  isFinite x = true ->
  (forall s m e, x = S754_finite s m e -> Zpos (digits2_pos m) <= 53) ->
  exists n, nearestInteger x n /\ integerValue (Math_round x) n.
Proof.
  intros Hfin Hdig.
  destruct x as [s|s| |s m e]; try discriminate.
  - exists 0. split; reflexivity.
  - specialize (Hdig s m e eq_refl).
    unfold Math_round. destruct (Z.leb_spec 0 e) as [He|He].
    + exists (cond_Zopp s (Zpos m) * 2 ^ e). unfold nearestInteger, integerValue.
      replace (Z.max (- e) 0) with 0 by lia.
      replace (Z.max e 0) with e by lia.
      rewrite Z.pow_0_r. split; lia.
    + set (M := cond_Zopp s (Zpos m)).
      set (q := Z.shiftr (M + 2 ^ (- e - 1)) (- e)).
      assert (HH : 0 < 2 ^ (- e - 1)) by (apply Z.pow_pos_nonneg; lia).
      assert (HP : 2 ^ (- e) = 2 * 2 ^ (- e - 1)).
      { replace (- e) with (Z.succ (- e - 1)) at 1 by lia.
        apply Z.pow_succ_r. lia. }
      assert (Hq : q = (M + 2 ^ (- e - 1)) / 2 ^ (- e))
        by (unfold q; apply Z.shiftr_div_pow2; lia).
      pose proof (Z.div_mod (M + 2 ^ (- e - 1)) (2 ^ (- e)) ltac:(lia)) as Hdiv.
      pose proof (Z.mod_pos_bound (M + 2 ^ (- e - 1)) (2 ^ (- e)) ltac:(lia)) as Hmod.
      rewrite <- Hq in Hdiv.
      assert (HM : Z.abs M < 2 ^ 53).
      { pose proof (lt_pow2_digits m) as Hlt.
        assert (2 ^ Zpos (digits2_pos m) <= 2 ^ 53) by (apply Z.pow_le_mono_r; lia).
        unfold M. destruct s; simpl; lia. }
      exists q. split.
      * unfold nearestInteger. fold M.
        replace (Z.max (- e) 0) with (- e) by lia.
        replace (Z.max e 0) with 0 by lia.
        rewrite Z.pow_0_r.
        revert Hdiv Hmod HP HH.
        generalize (2 ^ (- e)) as P. generalize (2 ^ (- e - 1)) as H.
        generalize ((M + 2 ^ (- e - 1)) mod 2 ^ (- e)) as r.
        intros r H P Hdiv Hmod HP HH.
        nia.
      * assert (Hqb : Z.abs q < 2 ^ 53).
        { revert Hdiv Hmod HP HH HM.
          generalize (2 ^ (- e)) as P. generalize (2 ^ (- e - 1)) as H.
          generalize ((M + 2 ^ (- e - 1)) mod 2 ^ (- e)) as r.
          generalize (2 ^ 53) as B.
          intros B r H P Hdiv Hmod HP HH HM. nia. }
        destruct (Z.eqb_spec q 0) as [Hz|Hnz]; [exact Hz|].
        apply num_of_Z_integer. apply Zdigits2_le_of_abs_lt; [lia | exact Hqb].
Qed.

(** [Math.round(v * 100) / 100] is [v] rounded to two decimal places. *)
Lemma round2_rounds (v : number) : roundedTo2Decimals v (round2 v).
Proof.
  unfold roundedTo2Decimals, round2.
  destruct (isFinite (num_mul v (num_of_Z 100))) eqn:Hfin.
  - destruct (Math_round_nearest (num_mul v (num_of_Z 100)) Hfin) as (n & Hn & Hk).
    + intros s m e. apply num_mul_digits.
    + exists (Math_round (num_mul v (num_of_Z 100))), n. now repeat split.
  - change (num_of_Z 100) with (S754_finite false 7036874417766400 (-46)) in *.
    destruct (num_mul v (S754_finite false 7036874417766400 (-46)))
      as [s|s| |s m e]; try discriminate.
    + simpl. now rewrite xorb_false_r.
    + reflexivity.
Qed.

End RoundingFacts.

Section AggregatorRounding.

(** C5: for a query that passes the validation and a dataset whose prices
    are Numbers, the value at index [i] of the series is the one the
    specification gives to the records that match the city, the fuel
    type, the year and the month [i + 1]: 0 when there is none, and
    otherwise the sum of their prices, added from left to right, divided
    by their number and rounded to two decimal places, that is the
    integer nearest to 100 times the quotient, divided by 100.  Two
    Mumbai, petrol, 2023 records for month 1 with prices 100 and 102 give
    101 at index 0 and 0 at every other index; prices 100, 100 and 101
    give 100.33, and prices 100, 101 and 101 give 100.67. *)
Theorem C5_monthly_average :
  (forall (items : list RSPDataPoint) (cityName fuel : string) (y : Z) (i : nat),
      cityName <> EmptyString -> fuel = "petrol" \/ fuel = "diesel" ->
      2017 <= y <= 2025 -> (i < 12)%nat ->
      Forall (fun d => isNaN (rsp d) = false) items ->
      getMonthlyAverages (JArr items) (JStr cityName) (JStr fuel) (JNum (num_of_Z y)) !! i
      = Some (meanOf (bucketOf items cityName fuel y i))
      /\ monthValue (bucketOf items cityName fuel y i)
                    (meanOf (bucketOf items cityName fuel y i)))
  /\ getMonthlyAverages
       (JArr [mkPoint "Mumbai" "petrol" 2023 1 (num_of_Z 100);
              mkPoint "Mumbai" "petrol" 2023 1 (num_of_Z 102)])
       (JStr "Mumbai") (JStr "petrol") (JNum (num_of_Z 2023))
     = num_of_Z 101 :: replicate 11 zero
  /\ getMonthlyAverages
       (JArr [mkPoint "Mumbai" "petrol" 2023 1 (num_of_Z 100);
              mkPoint "Mumbai" "petrol" 2023 1 (num_of_Z 100);
              mkPoint "Mumbai" "petrol" 2023 1 (num_of_Z 101)])
       (JStr "Mumbai") (JStr "petrol") (JNum (num_of_Z 2023))
     = decimal false 10033 (-2) :: replicate 11 zero
  /\ getMonthlyAverages
       (JArr [mkPoint "Mumbai" "petrol" 2023 1 (num_of_Z 100);
              mkPoint "Mumbai" "petrol" 2023 1 (num_of_Z 101);
              mkPoint "Mumbai" "petrol" 2023 1 (num_of_Z 101)])
       (JStr "Mumbai") (JStr "petrol") (JNum (num_of_Z 2023))
     = decimal false 10067 (-2) :: replicate 11 zero.
Proof.
  split; [|split; [reflexivity | split; reflexivity]].
  intros items cityName fuel y i Hc Hf Hy Hi Hnum.
  split.
  - rewrite (getMonthlyAverages_valid items cityName fuel y i Hc Hf Hy Hi).
    rewrite filter_all; [reflexivity|].
    apply Forall_filter_keep.
    eapply Forall_impl; [exact Hnum|]. intros d Hd. simpl in Hd. now rewrite Hd.
  - unfold monthValue, meanOf.
    destruct (bucketOf items cityName fuel y i); [reflexivity | apply round2_rounds].
Qed.

Lemma C5_monthly_average_witness :
  getMonthlyAverages
    (JArr [mkPoint "Delhi" "diesel" 2020 3 (decimal false 625 (-1));
           mkPoint "Delhi" "diesel" 2020 3 (decimal false 635 (-1));
           mkPoint "Delhi" "petrol" 2020 3 (num_of_Z 70);
           mkPoint "Delhi" "diesel" 2020 3 (decimal false 631 (-1))])
    (JStr "Delhi") (JStr "diesel") (JNum (num_of_Z 2020)) !! 2%nat
  = Some (decimal false 6303 (-2))
  /\ monthValue
       [mkPoint "Delhi" "diesel" 2020 3 (decimal false 625 (-1));
        mkPoint "Delhi" "diesel" 2020 3 (decimal false 635 (-1));
        mkPoint "Delhi" "diesel" 2020 3 (decimal false 631 (-1))]
       (decimal false 6303 (-2)).
Proof.
  destruct C5_monthly_average as [H _].
  apply (H [mkPoint "Delhi" "diesel" 2020 3 (decimal false 625 (-1));
            mkPoint "Delhi" "diesel" 2020 3 (decimal false 635 (-1));
            mkPoint "Delhi" "petrol" 2020 3 (num_of_Z 70);
            mkPoint "Delhi" "diesel" 2020 3 (decimal false 631 (-1))]
           "Delhi" "diesel" 2020 2%nat);
    [discriminate | now right | lia | lia |].
  repeat constructor.
Defined.

End AggregatorRounding.

(* ===================================================================== *)
(** * Properties of the fallback generator *)
(* ===================================================================== *)

Section GeneratorFacts.

(** The four nested loops push one record per key of the cross product, in
    order, the [k]-th with the [k]-th random value. *)
Lemma generateSampleData_imap (random : nat -> number) :
  generateSampleData random = imap (sampleOf random) crossProduct.
Proof.
  unfold generateSampleData, cityBody, fuelBody, yearBody, monthBody, sampleOf.
  generalize samplePoint. intros mk.
  vm_compute. reflexivity.
Qed.

Lemma crossProduct_keys : forallb keyOk crossProduct = true.
Proof. vm_compute. reflexivity. Qed.

Lemma keyEqb_refl (key : string * string * Z * Z) : keyEqb key key = true.
Proof.
  destruct key as [[[c f] y] m]. unfold keyEqb.
  now rewrite !String.eqb_refl, !Z.eqb_refl.
Qed.

Lemma distinctb_NoDup (l : list (string * string * Z * Z)) :
  distinctb l = true -> NoDup l.
Proof.
  induction l as [|key l IH]; simpl; intros H; [constructor|].
  apply andb_true_iff in H as [Hnotin Hrest].
  apply NoDup_cons_2; [|now apply IH].
  intros Hin. apply list_elem_of_In in Hin.
  apply negb_true_iff in Hnotin.
  assert (Hex : existsb (keyEqb key) l = true).
  { apply existsb_exists. exists key. split; [assumption | apply keyEqb_refl]. }
  congruence.
Qed.

Lemma crossProduct_distinct : distinctb crossProduct = true.
Proof. vm_compute. reflexivity. Qed.

Lemma imap_keys (f : nat -> string * string * Z * Z -> RSPDataPoint)
      (l : list (string * string * Z * Z)) :
  (forall k key, keyOf (f k key) = key) -> List.map keyOf (imap f l) = l.
Proof.
  revert f. induction l as [|key l IH]; intros f Hf; [reflexivity|].
  cbn [imap List.map]. rewrite Hf. f_equal. apply IH. intros k key'. apply Hf.
Qed.

Lemma imap_Forall (P : RSPDataPoint -> Prop)
      (f : nat -> string * string * Z * Z -> RSPDataPoint)
      (l : list (string * string * Z * Z)) :
  (forall k key, In key l -> P (f k key)) -> Forall P (imap f l).
Proof.
  revert f. induction l as [|key l IH]; intros f Hf; [constructor|].
  cbn [imap]. constructor.
  - apply Hf. now left.
  - apply IH. intros k key' Hin. apply Hf. now right.
Qed.

(** The price of a generated record is valid when the random value is in
    [0, 1) and the trend is small. *)
Lemma samplePoint_price (r : number) (c f : string) (y m : Z) :
  unitInterval r -> smallb 8 (trend c f y m) = true ->
  validPrice (rsp (samplePoint r c f y m)).
Proof.
  intros Hr Ht. cbn [samplePoint rsp].
  apply unitInterval_small in Hr.
  assert (Hhalf : smallb 0 (decimal false 5 (-1)) = true) by reflexivity.
  assert (Hten : smallb 4 (num_of_Z 10) = true) by reflexivity.
  pose proof (num_sub_small r (decimal false 5 (-1)) 0 Hr Hhalf ltac:(lia)) as Hsub.
  destruct (num_mul_small _ _ (0 + 2) 4 Hsub Hten ltac:(lia)) as [Hmul _].
  apply (smallb_mono (0 + 2 + 4 + 1) 8) in Hmul; [|lia].
  pose proof (num_add_small (trend c f y m) _ 8 Ht Hmul ltac:(lia)) as Hadd.
  destruct (Math_max_zero_small _ _ Hadd) as [Hmax Hsign].
  apply (round2_valid _ (8 + 2) Hmax Hsign). lia.
Qed.

Lemma sampleOf_valid (random : nat -> number) (k : nat) (key : string * string * Z * Z) :
  unitInterval (random k) -> In key crossProduct -> validPoint (sampleOf random k key).
Proof.
  intros Hr Hin.
  pose proof crossProduct_keys as Hkeys.
  rewrite forallb_forall in Hkeys. specialize (Hkeys key Hin).
  destruct key as [[[c f] y] m]. unfold keyOk in Hkeys.
  repeat (apply andb_true_iff in Hkeys as [Hkeys ?]).
  unfold validPoint, sampleOf.
  split; [|split; [|split; [|split]]].
  - cbn [samplePoint city]. apply isEmpty_false. now apply negb_true_iff.
  - cbn [samplePoint fuelType].
    match goal with H : _ || _ = true |- _ =>
      apply orb_true_iff in H as [H|H]; apply String.eqb_eq in H; auto end.
  - cbn [samplePoint year]. lia.
  - cbn [samplePoint month]. lia.
  - now apply samplePoint_price.
Qed.

End GeneratorFacts.

Section GeneratorClaims.

(** C9: [generateSampleData] has no failing path and, whatever [Math.random()]
    returns, pushes exactly one record for each element of the cross
    product of the four cities, the two fuel types, the nine years 2017 to
    2025 and the twelve months, 864 records in all, in that order; the price
    of each is the raw value floored at 0 and rounded to two decimals; and
    when every random value lies in [0, 1), as [Math.random()] promises,
    every record satisfies the five field constraints. *)
Theorem C9_sample_data (random : nat -> number) :
  List.map keyOf (generateSampleData random) = crossProduct
  /\ NoDup crossProduct
  /\ length (generateSampleData random)
     = (length metroCities * length fuelTypes * length availableYears * 12)%nat
  /\ length (generateSampleData random) = 864%nat
  /\ generateSampleData random = imap (sampleOf random) crossProduct
  /\ Forall (fun d => exists raw, rsp d = round2 (Math_max zero raw))
            (generateSampleData random)
  /\ ((forall k, unitInterval (random k)) ->
      Forall validPoint (generateSampleData random)).
Proof.
  pose proof (generateSampleData_imap random) as Himap.
  assert (Hlen : length (generateSampleData random) = 864%nat).
  { rewrite Himap, length_imap. reflexivity. }
  split; [|split; [|split; [|split; [|split; [|split]]]]].
  - rewrite Himap. apply imap_keys. now intros k [[[c f] y] m].
  - apply distinctb_NoDup, crossProduct_distinct.
  - rewrite Hlen. reflexivity.
  - exact Hlen.
  - exact Himap.
  - rewrite Himap. apply imap_Forall. intros k [[[c f] y] m] _.
    eexists. reflexivity.
  - intros Hrandom. rewrite Himap. apply imap_Forall.
    intros k key Hin. now apply sampleOf_valid.
Qed.

Lemma C9_sample_data_witness :
  Forall validPoint
         (generateSampleData
            (fun k => if Nat.even k then decimal false 25 (-2) else decimal false 75 (-2))).
Proof.
  apply (C9_sample_data
           (fun k => if Nat.even k then decimal false 25 (-2) else decimal false 75 (-2))).
  intros k. destruct (Nat.even k); (split; [reflexivity | split; reflexivity]).
Defined.

End GeneratorClaims.

(* ===================================================================== *)
(** * What the normalizer does guarantee *)
(* ===================================================================== *)

Section NormalizerInvariant.

Variable jsDate : string -> option (Z * Z).

(** [getMonth()] of a valid date is one of 0..11. *)
Hypothesis getMonth_range :
  forall s fullYear monthIndex,
    jsDate s = Some (fullYear, monthIndex) -> 0 <= monthIndex <= 11.

Lemma processLine_fieldsValid (rawLine : string) (point : RSPDataPoint) :
  processLine jsDate rawLine = Valid point -> fieldsValid point.
Proof.
  intros H.
  apply processLine_Valid in H
    as ((_ & Hcity & Hprod & _) & _ & y & m & Hdate & Hy & Hnan & Hlt & ->).
  apply getMonth_range in Hdate.
  destruct (round2_nonneg _ Hnan Hlt) as [Hn Hge].
  unfold fieldsValid. cbn [city fuelType year month rsp].
  repeat split; (assumption || lia).
Qed.

(** Every record that [parseCSVData] returns has a valid city, fuel type,
    year and month, and a price that is a Number and at least 0. *)
Lemma stored_points_invariant (csvText : string) (rows : list RSPDataPoint) :
  parseCSVData jsDate csvText = Returns rows -> Forall fieldsValid rows.
Proof.
  rewrite parseCSVData_spec.
  destruct (length (split newline csvText) <? 2)%nat; [discriminate|].
  assert (Hall : forall lines, Forall fieldsValid (validRowsOf jsDate lines)).
  { induction lines as [|l lines IH]; [constructor|].
    unfold validRowsOf in *. cbn [omap list_omap].
    destruct (processLine jsDate l) as [| |point] eqn:Hrow; cbn; try exact IH.
    constructor; [|exact IH]. now apply (processLine_fieldsValid l). }
  specialize (Hall (tail (split newline csvText))).
  destruct (validRowsOf jsDate (tail (split newline csvText))) as [|r rs];
    [discriminate|].
  intros H. inversion H. subst rows. exact Hall.
Qed.

End NormalizerInvariant.


(* ===================================================================== *)
(** * Further properties of the tokenizer *)
(* ===================================================================== *)

Section TokenizerProperties.

Lemma trimEnd_idempotent (s : string) : trimEnd (trimEnd s) = trimEnd s.
Proof.
  induction s as [|c s IH]; simpl; [reflexivity|].
  destruct (isWhiteSpace c && isEmpty (trimEnd s)) eqn:Hc; simpl; [reflexivity|].
  now rewrite IH, Hc.
Qed.

Lemma trimStart_head (s : string) :
  trimStart s = EmptyString
  \/ exists c r, trimStart s = String c r /\ isWhiteSpace c = false.
Proof.
  induction s as [|c s IH]; simpl; [now left|].
  destruct (isWhiteSpace c) eqn:Hc; [exact IH|].
  right. now exists c, s.
Qed.

Lemma trim_idempotent (s : string) : trim (trim s) = trim s.
Proof.
  unfold trim. destruct (trimStart_head s) as [-> | (c & r & -> & Hc)]; [reflexivity|].
  assert (He : forall t, trimEnd (String c t) = String c (trimEnd t)).
  { intros t. cbn [trimEnd]. now rewrite Hc. }
  rewrite He. cbn [trimStart]. rewrite Hc, He.
  now rewrite trimEnd_idempotent.
Qed.

(** The loop keeps the pushed fields trimmed. *)
Lemma loop_trimmed (line : string) (result : list string) (current : string)
      (inQuotes : bool) :
  Forall (fun f => trim f = f) result ->
  Forall (fun f => trim f = f) (parseCSVLine_loop line result current inQuotes).
Proof.
  revert result current inQuotes.
  induction line as [|c line IH]; intros result current inQuotes Hr; simpl.
  - apply Forall_app. split; [assumption|].
    constructor; [apply trim_idempotent | constructor].
  - destruct (Ascii.eqb c dquote); [now apply IH|].
    destruct (Ascii.eqb c comma && negb inQuotes); [|now apply IH].
    apply IH, Forall_app. split; [assumption|].
    constructor; [apply trim_idempotent | constructor].
Qed.

(** X1: every field that [parseCSVLine] returns is trimmed: trimming it again
    changes nothing, so no field starts or ends with white space and the
    [trim()] calls that [parseCSVData] applies to the columns are no-ops. *)
Theorem X1_fields_are_trimmed (line : string) :
  Forall (fun field => trim field = field) (parseCSVLine line).
Proof. apply loop_trimmed. constructor. Qed.

Lemma loop_length (line : string) (result : list string) (current : string)
      (inQuotes : bool) :
  length (parseCSVLine_loop line result current inQuotes)
  = (length result + S (separators line inQuotes))%nat.
Proof.
  revert result current inQuotes.
  induction line as [|c line IH]; intros result current inQuotes; simpl.
  - rewrite length_app. simpl. lia.
  - destruct (Ascii.eqb c dquote); [apply IH|].
    destruct (Ascii.eqb c comma && negb inQuotes); [|apply IH].
    rewrite IH, length_app. simpl. lia.
Qed.

Lemma separators_unquoted (line : string) :
  hasChar dquote line = false ->
  separators line false
  = length (List.filter (fun char => Ascii.eqb char comma) (list_ascii_of_string line)).
Proof.
  induction line as [|c line IH]; [reflexivity|].
  cbn [hasChar separators list_ascii_of_string List.filter].
  intros H. apply orb_false_iff in H as [Hq Hrest]. rewrite Hq.
  destruct (Ascii.eqb c comma); cbn [andb negb length]; now rewrite (IH Hrest).
Qed.

(** X2: [parseCSVLine] returns one field more than the line has commas
    outside quotes; so it never returns the empty array with which its
    [catch] block would signal a failure, and for a line without quotes the
    number of fields is the number of commas plus one. *)
Theorem X2_field_count (line : string) :
  length (parseCSVLine line) = S (separators line false)
  /\ parseCSVLine line <> []
  /\ (hasChar dquote line = false ->
      length (parseCSVLine line)
      = S (length (List.filter (fun char => Ascii.eqb char comma)
                              (list_ascii_of_string line)))).
Proof.
  assert (Hlen : length (parseCSVLine line) = S (separators line false)).
  { unfold parseCSVLine. now rewrite loop_length. }
  split; [exact Hlen|]. split.
  - intros Hnil. rewrite Hnil in Hlen. discriminate.
  - intros Hq. now rewrite Hlen, separators_unquoted.
Qed.

Lemma X2_field_count_witness :
  length (parseCSVLine "India,2023,1,2023-01-15,Petrol,Mumbai,96.72") = 7%nat.
Proof.
  destruct (X2_field_count "India,2023,1,2023-01-15,Petrol,Mumbai,96.72") as (_ & _ & H).
  rewrite H; reflexivity.
Defined.

Lemma loop_quote_pair (a b : string) (result : list string) (current : string)
      (inQuotes : bool) :
  parseCSVLine_loop (a ++ String dquote (String dquote b)) result current inQuotes
  = parseCSVLine_loop (a ++ b) result current inQuotes.
Proof.
  revert result current inQuotes.
  induction a as [|c a IH]; intros result current inQuotes; simpl.
  - now rewrite negb_involutive.
  - destruct (Ascii.eqb c dquote); [apply IH|].
    destruct (Ascii.eqb c comma && negb inQuotes); apply IH.
Qed.

Lemma loop_open_quote (q : string) (result : list string) (current : string) :
  hasChar dquote q = false ->
  parseCSVLine_loop q result current true = result ++ [trim (current ++ q)].
Proof.
  revert current. induction q as [|c q IH]; intros current Hq; simpl.
  - now rewrite append_empty_r.
  - simpl in Hq. apply orb_false_iff in Hq as [Hq1 Hq2].
    rewrite Hq1, andb_false_r, (IH _ Hq2). now rewrite append_snoc_cons.
Qed.

(** X3: a quote is never data.  Two quotes in a row, anywhere in the line,
    leave no trace: the doubled quote of standard CSV does not give a quote
    character.  After a quote that is never closed the rest of the line is
    one field, its commas included. *)
Theorem X3_quotes_only_toggle :
  (forall a b,
      parseCSVLine (a ++ String dquote (String dquote b)) = parseCSVLine (a ++ b))
  /\ (forall pre q,
      hasChar dquote pre = false -> hasChar comma pre = false ->
      hasChar dquote q = false ->
      parseCSVLine (pre ++ String dquote q) = [trim (pre ++ q)]).
Proof.
  split.
  - intros a b. apply loop_quote_pair.
  - intros pre q Hq1 Hc1 Hq2. unfold parseCSVLine.
    rewrite (loop_plain_run pre _ [] EmptyString Hq1 Hc1). simpl.
    now rewrite (loop_open_quote q [] pre Hq2).
Qed.

Lemma X3_quotes_only_toggle_witness :
  parseCSVLine ("a" ++ String dquote "b,c") = ["ab,c"].
Proof.
  destruct X3_quotes_only_toggle as [_ H].
  rewrite (H "a" "b,c"); reflexivity.
Defined.

End TokenizerProperties.


(* ===================================================================== *)
(** * Further properties of the row normalizer *)
(* ===================================================================== *)

Section NormalizerProperties.


Lemma validRowsOf_length (jsDate : string -> option (Z * Z)) (lines : list string) :
  (length (validRowsOf jsDate lines) <= length lines)%nat.
Proof.
  unfold validRowsOf. induction lines as [|l lines IH]; [reflexivity|].
  cbn [omap list_omap]. destruct (pointOf (processLine jsDate l)); simpl; lia.
Qed.

Lemma validRowsOf_app (jsDate : string -> option (Z * Z)) (l1 l2 : list string) :
  validRowsOf jsDate (l1 ++ l2) = validRowsOf jsDate l1 ++ validRowsOf jsDate l2.
Proof. unfold validRowsOf. apply omap_app. Qed.

(** What [parseCSVData] returns, when it returns. *)
Lemma parseCSVData_Returns (jsDate : string -> option (Z * Z)) (csvText : string)
      (rows : list RSPDataPoint) :
  parseCSVData jsDate csvText = Returns rows
  <-> hasChar newline csvText = true
      /\ rows <> []
      /\ rows = validRowsOf jsDate (tail (split newline csvText)).
Proof.
  rewrite parseCSVData_spec.
  destruct (Nat.ltb_spec (length (split newline csvText)) 2) as [Hlt|Hge].
  - split; [discriminate|]. intros (Hnl & _). apply split_length_ge_2 in Hnl. lia.
  - apply split_length_ge_2 in Hge.
    destruct (validRowsOf jsDate (tail (split newline csvText))) as [|r rs].
    + split; [discriminate|]. intros (_ & Hne & ->). contradiction.
    + split.
      * intros H. inversion H. now repeat split.
      * intros (_ & _ & ->). reflexivity.
Qed.

(** X5: [parseCSVData] never returns an empty array: when it returns, there
    is at least one record, and fewer records than the text has lines.  So
    the test [parsedData.length === 0] of [loadRealData] is never true. *)
Theorem X5_parse_result_not_empty (jsDate : string -> option (Z * Z))
        (csvText : string) (rows : list RSPDataPoint) :
  parseCSVData jsDate csvText = Returns rows ->
  rows <> [] /\ (0 < length rows < length (split newline csvText))%nat.
Proof.
  intros H. apply parseCSVData_Returns in H as (Hnl & Hne & Hrows).
  split; [exact Hne|]. split.
  - destruct rows; [contradiction | simpl; lia].
  - rewrite Hrows.
    pose proof (validRowsOf_length jsDate (tail (split newline csvText))) as Hlen.
    pose proof (split_not_nil newline csvText) as Hnn.
    destruct (split newline csvText); [contradiction|]. simpl in *. lia.
Qed.

Lemma X5_parse_result_not_empty_witness :
  [mkPoint "Mumbai" "petrol" 2023 1 zero] <> []
  /\ (0 < length [mkPoint "Mumbai" "petrol" 2023 1 zero]
       < length (split newline
                   (joinLines [sampleHeader;
                               "India,2023,1,2023-01-15,Petrol,Mumbai,NA"])))%nat.
Proof.
  apply (X5_parse_result_not_empty isoDate
           (joinLines [sampleHeader; "India,2023,1,2023-01-15,Petrol,Mumbai,NA"])
           [mkPoint "Mumbai" "petrol" 2023 1 zero]).
  reflexivity.
Defined.

Lemma split_append_sep (sep : ascii) (a b : string) :
  split sep (a ++ String sep b) = split sep a ++ split sep b.
Proof.
  induction a as [|c a IH]; simpl.
  - now rewrite Ascii.eqb_refl.
  - destruct (Ascii.eqb c sep); [now rewrite IH|].
    rewrite IH. pose proof (split_not_nil sep a) as Hne.
    destruct (split sep a); [contradiction | reflexivity].
Qed.

(** X6: the first line is never data.  Two texts that differ only in their
    first line give the same result, also when that line has the form of a
    valid row. *)
Theorem X6_header_is_ignored (jsDate : string -> option (Z * Z))
        (header1 header2 rest : string) :
  hasChar newline header1 = false -> hasChar newline header2 = false ->
  parseCSVData jsDate (header1 ++ String newline rest)
  = parseCSVData jsDate (header2 ++ String newline rest).
Proof.
  intros H1 H2. rewrite !parseCSVData_spec, !split_append_sep.
  rewrite (split_no_sep newline header1 H1), (split_no_sep newline header2 H2).
  reflexivity.
Qed.

Lemma X6_header_is_ignored_witness :
  parseCSVData isoDate
    ("India,2023,2,2023-02-15,Diesel,Delhi,80" ++ String newline
       "India,2023,1,2023-01-15,Petrol,Mumbai,NA")
  = Returns [mkPoint "Mumbai" "petrol" 2023 1 zero].
Proof.
  rewrite (X6_header_is_ignored isoDate
             "India,2023,2,2023-02-15,Diesel,Delhi,80" sampleHeader
             "India,2023,1,2023-01-15,Petrol,Mumbai,NA"); reflexivity.
Defined.

(** X7: parsing is line by line and keeps the order.  When a text gives the
    records [rowsA] and the lines of [more], put under any header, give the
    records [rowsB], the text followed by a line feed and [more] gives
    [rowsA] followed by [rowsB]. *)
Theorem X7_parse_concatenation (jsDate : string -> option (Z * Z))
        (csvText header more : string) (rowsA rowsB : list RSPDataPoint) :
  parseCSVData jsDate csvText = Returns rowsA ->
  hasChar newline header = false ->
  parseCSVData jsDate (header ++ String newline more) = Returns rowsB ->
  parseCSVData jsDate (csvText ++ String newline more) = Returns (rowsA ++ rowsB).
Proof.
  intros HA Hh HB.
  apply parseCSVData_Returns in HA as (HnlA & HneA & ->).
  apply parseCSVData_Returns in HB as (_ & _ & ->).
  apply parseCSVData_Returns.
  rewrite !split_append_sep, (split_no_sep newline header Hh).
  split; [rewrite hasChar_append, HnlA; reflexivity|].
  pose proof (split_not_nil newline csvText) as Hnn.
  destruct (split newline csvText) as [|h t]; [contradiction|].
  cbn [tail app]. rewrite validRowsOf_app.
  split; [|reflexivity].
  intros Hnil. apply app_eq_nil in Hnil as [Hnil _]. now apply HneA.
Qed.

Lemma X7_parse_concatenation_witness :
  parseCSVData isoDate
    (joinLines [sampleHeader; "India,2023,1,2023-01-15,Petrol,Mumbai,NA"]
     ++ String newline "India,2024,3,2024-03-15,Diesel,Delhi,N/A")
  = Returns [mkPoint "Mumbai" "petrol" 2023 1 zero; mkPoint "Delhi" "diesel" 2024 3 zero].
Proof.
  apply (X7_parse_concatenation isoDate
           (joinLines [sampleHeader; "India,2023,1,2023-01-15,Petrol,Mumbai,NA"])
           sampleHeader "India,2024,3,2024-03-15,Diesel,Delhi,N/A"
           [mkPoint "Mumbai" "petrol" 2023 1 zero]
           [mkPoint "Delhi" "diesel" 2024 3 zero]); reflexivity.
Defined.

(** X8: a line feed at the end of the file, or a last line of white space
    only, changes nothing, provided the text already has a line feed. *)
Theorem X8_trailing_blank_line (jsDate : string -> option (Z * Z))
        (csvText blank : string) :
  hasChar newline csvText = true ->
  hasChar newline blank = false -> trim blank = EmptyString ->
  parseCSVData jsDate (csvText ++ String newline blank) = parseCSVData jsDate csvText.
Proof.
  intros Hnl Hb Hblank. rewrite !parseCSVData_spec, split_append_sep.
  rewrite (split_no_sep newline blank Hb).
  pose proof (proj1 (split_length_ge_2 newline csvText) Hnl) as Hge.
  rewrite length_app.
  destruct (Nat.ltb_spec (length (split newline csvText)) 2) as [|_]; [lia|].
  destruct (Nat.ltb_spec (length (split newline csvText) + length [blank]) 2) as [Hlt|_];
    [simpl in Hlt; lia|].
  destruct (split newline csvText) as [|h t]; [simpl in Hge; lia|].
  cbn [tail app]. rewrite validRowsOf_app.
  assert (Hrow : validRowsOf jsDate [blank] = []).
  { unfold validRowsOf, processLine. cbn [omap list_omap]. now rewrite Hblank. }
  now rewrite Hrow, app_nil_r.
Qed.

Lemma X8_trailing_blank_line_witness :
  parseCSVData isoDate
    (joinLines [sampleHeader; "India,2023,1,2023-01-15,Petrol,Mumbai,NA"]
     ++ String newline "  ")
  = Returns [mkPoint "Mumbai" "petrol" 2023 1 zero].
Proof.
  rewrite (X8_trailing_blank_line isoDate
             (joinLines [sampleHeader; "India,2023,1,2023-01-15,Petrol,Mumbai,NA"])
             "  "); reflexivity.
Defined.

(** X9: the two counters that [parseCSVData] logs add up.  After the loop,
    [validRows] is the number of records in [data], and [validRows] plus
    [skippedRows] is the number of data lines that are not blank. *)
Theorem X9_row_counters (jsDate : string -> option (Z * Z)) (lines : list string) :
  validRows (fold_left (parseStep jsDate) lines (mkParseState [] 0 0))
  = length (data (fold_left (parseStep jsDate) lines (mkParseState [] 0 0)))
  /\ (validRows (fold_left (parseStep jsDate) lines (mkParseState [] 0 0))
      + skippedRows (fold_left (parseStep jsDate) lines (mkParseState [] 0 0)))%nat
     = length (List.filter (fun rawLine => negb (isEmpty (trim rawLine))) lines).
Proof.
  assert (Hgen : forall st,
             validRows st = length (data st) ->
             validRows (fold_left (parseStep jsDate) lines st)
             = length (data (fold_left (parseStep jsDate) lines st))
             /\ (validRows (fold_left (parseStep jsDate) lines st)
                 + skippedRows (fold_left (parseStep jsDate) lines st))%nat
                = (validRows st + skippedRows st
                   + length (List.filter (fun rawLine => negb (isEmpty (trim rawLine)))
                                         lines))%nat).
  { induction lines as [|l lines IH]; intros st Hst; cbn [fold_left List.filter].
    - simpl. split; [assumption | lia].
    - assert (Hstep : validRows (parseStep jsDate st l)
                      = length (data (parseStep jsDate st l))
                      /\ (validRows (parseStep jsDate st l)
                          + skippedRows (parseStep jsDate st l))%nat
                         = (validRows st + skippedRows st
                            + (if negb (isEmpty (trim l)) then 1 else 0))%nat).
      { unfold parseStep.
        destruct (processLine jsDate l) as [| |point] eqn:Hrow.
        - unfold processLine in Hrow.
          destruct (isEmpty (trim l)); simpl; [split; [assumption | lia]|].
          exfalso. revert Hrow.
          repeat match goal with
                 | |- context [if ?c then _ else _] => destruct c
                 | |- context [match ?c with _ => _ end] => destruct c
                 end; discriminate.
        - assert (Hnb : isEmpty (trim l) = false).
          { unfold processLine in Hrow. destruct (isEmpty (trim l)); [discriminate|].
            reflexivity. }
          rewrite Hnb. simpl. split; [assumption | lia].
        - assert (Hnb : isEmpty (trim l) = false).
          { unfold processLine in Hrow. destruct (isEmpty (trim l)); [discriminate|].
            reflexivity. }
          rewrite Hnb. simpl. rewrite length_app. simpl. split; lia. }
      destruct Hstep as [Hs1 Hs2].
      destruct (IH _ Hs1) as [H1 H2]. split; [exact H1|].
      rewrite H2, Hs2. destruct (negb (isEmpty (trim l))); simpl; lia. }
  destruct (Hgen (mkParseState [] 0 0) eq_refl) as [H1 H2].
  split; [exact H1|]. rewrite H2. reflexivity.
Qed.

Lemma isoDate_month_range (s : string) (fullYear monthIndex : Z) :
  isoDate s = Some (fullYear, monthIndex) -> 0 <= monthIndex <= 11.
Proof.
  unfold isoDate.
  do 10 (destruct s as [|? s]; [discriminate|]).
  destruct s; [|discriminate].
  destruct (_ && _); [|discriminate].
  repeat match goal with
         | |- context [twoDigits ?a ?b] => destruct (twoDigits a b); [|discriminate]
         end.
  match goal with
  | |- context [if ?c then _ else _] => destruct c eqn:Hc; [|discriminate]
  end.
  intros H. inversion H. subst.
  repeat (apply andb_true_iff in Hc as [Hc ?]). lia.
Qed.

(** X10: what every stored record does satisfy.  With a date parser whose
    month index is within 0..11, as [getMonth()] promises, every record
    that [parseCSVData] returns has a city that is not empty, the fuel type
    petrol or diesel, a year within 2017..2025, a month within 1..12 and a
    price that is not NaN and not below 0. *)
Theorem X10_stored_records_are_valid (jsDate : string -> option (Z * Z))
        (csvText : string) (rows : list RSPDataPoint) :
  (forall s fullYear monthIndex,
      jsDate s = Some (fullYear, monthIndex) -> 0 <= monthIndex <= 11) ->
  parseCSVData jsDate csvText = Returns rows ->
  Forall fieldsValid rows.
Proof. intros Hmonth. now apply stored_points_invariant. Qed.

Lemma X10_stored_records_are_valid_witness :
  Forall fieldsValid [mkPoint "Mumbai" "petrol" 2023 1 (decimal false 9672 (-2))].
Proof.
  apply (X10_stored_records_are_valid isoDate
           (joinLines [sampleHeader; "India,2023,1,2023-01-15,PETROL, Mumbai ,96.72"])).
  - apply isoDate_month_range.
  - reflexivity.
Defined.

End NormalizerProperties.


(* ===================================================================== *)
(** * Further properties of the aggregator *)
(* ===================================================================== *)

Section AggregatorProperties.

Lemma signClear_nonNegative (x : number) : signClear x = true -> nonNegative x.
Proof. destruct x as [[]|[]| |[] m e]; try discriminate; intros _; split; reflexivity. Qed.

Lemma nonNegative_cases (x : number) :
  nonNegative x -> x = S754_zero true \/ signClear x = true.
Proof.
  intros [Hnan Hge]. destruct x as [[]|[]| |[] m e]; try discriminate; auto.
Qed.

(** Adding a Number that is at least 0 to a Number with a clear sign bit
    gives a Number with a clear sign bit. *)
Lemma num_add_signClear (a b : number) :
  signClear a = true -> nonNegative b -> signClear (num_add a b) = true.
Proof.
  intros Ha Hb. apply nonNegative_cases in Hb as [-> | Hb].
  - destruct a as [[]|[]| |[] m e]; try discriminate; reflexivity.
  - destruct a as [[]|[]| |[] ma ea]; try discriminate;
      destruct b as [[]|[]| |[] mb eb]; try discriminate; try reflexivity.
    unfold num_add, SFadd. cbn [cond_Zopp].
    set (x := fst (shl_align ma ea (Z.min ea eb))).
    set (y := fst (shl_align mb eb (Z.min ea eb))).
    change (Zpos x + Zpos y) with (Zpos (x + y)). cbn [binary_normalize].
    destruct (binary_round_sign false (x + y) (Z.min ea eb)) as [Hn Hs].
    destruct (binary_round prec emax false (x + y) (Z.min ea eb)) as [s|s| |s m e];
      try discriminate; simpl in Hs; subst s; reflexivity.
Qed.

Lemma fold_add_signClear (l : list number) (acc : number) :
  signClear acc = true -> Forall nonNegative l ->
  signClear (fold_left num_add l acc) = true.
Proof.
  revert acc. induction l as [|v l IH]; intros acc Hacc Hl; [exact Hacc|].
  inversion Hl; subst. cbn [fold_left]. apply IH; [|assumption].
  now apply num_add_signClear.
Qed.

(** A count between 1 and 2^32 is a positive finite Number. *)
Lemma count_number (n : Z) :
  0 < n < 2 ^ 32 -> exists m e, num_of_Z n = S754_finite false m e.
Proof.
  intros Hn. destruct n as [|p|p]; try lia.
  destruct (num_of_Z_pos_exact p) as (d & _ & ->); [|eauto].
  assert (Zpos (digits2_pos p) <= 32) by (apply digits_le_of_lt_pow2; lia). lia.
Qed.

Lemma num_div_signClear (total : number) (m : positive) (e : Z) :
  signClear total = true -> signClear (num_div total (S754_finite false m e)) = true.
Proof.
  intros Ht. destruct total as [[]|[]| |[] mt et]; try discriminate; try reflexivity.
  unfold num_div, SFdiv.
  destruct (SFdiv_core_binary prec emax (Zpos mt) et (Zpos m) e) as [[q e'] l] eqn:Hcore.
  apply div_core_bound in Hcore as [Hq _].
  destruct (binary_round_aux_sign (xorb false false) q e' l Hq) as [Hn Hs].
  destruct (binary_round_aux prec emax (xorb false false) q e' l) as [s|s| |s m' e2];
    try discriminate; simpl in Hs; subst s; reflexivity.
Qed.

Lemma round2_of_signClear (x : number) : signClear x = true -> nonNegative (round2 x).
Proof.
  intros Hx. apply round2_nonneg.
  - destruct x; try discriminate; reflexivity.
  - destruct x as [[]|[]| |[] m e]; try discriminate; reflexivity.
Qed.

Lemma zeros_nonNegative : Forall nonNegative zeros.
Proof. unfold zeros. apply Forall_replicate. split; reflexivity. Qed.

(** X11: averages of prices that are not negative are not negative.  For a
    dataset of fewer than 2^32 records whose prices are Numbers at least 0
    (infinite ones included), and for all arguments, no value of the series
    is NaN or below 0. *)
Theorem X11_averages_not_negative (items : list RSPDataPoint)
        (city fuelType year : jsval) :
  Forall (fun d => nonNegative (rsp d)) items ->
  Z.of_nat (length items) < 2 ^ 32 ->
  Forall nonNegative (getMonthlyAverages (JArr items) city fuelType year).
Proof.
  intros Hitems Hlen. unfold getMonthlyAverages, getMonthlyAverages_try.
  destruct (negb (truthy city) || negb (isString city)); [apply zeros_nonNegative|].
  destruct (negb (truthy fuelType) || negb (includesFuel fuelType));
    [apply zeros_nonNegative|].
  destruct (yearRejected year); [apply zeros_nonNegative|].
  set (filteredData := List.filter _ items).
  assert (Hfil : Forall (fun d => nonNegative (rsp d)) filteredData)
    by now apply Forall_filter_keep.
  assert (Hfl : (length filteredData <= length items)%nat) by apply List.filter_length_le.
  destruct (length filteredData =? 0)%nat; [apply zeros_nonNegative|].
  destruct (fold_accumulate_length filteredData (zeros, replicate 12 O)) as [HlT HlC].
  pose proof (fun i => fold_accumulate_bucket filteredData zeros (replicate 12 O) i) as Hb.
  destruct (fold_left accumulate filteredData (zeros, replicate 12 O))
    as [monthlyTotals monthlyCounts]. cbn [fst snd] in *.
  apply Forall_lookup_2. intros i v Hv.
  rewrite list_lookup_imap in Hv.
  destruct (monthlyTotals !! i) as [total|] eqn:Ht; [|discriminate].
  cbn in Hv. inversion Hv. subst v. clear Hv.
  assert (Hi : (i < 12)%nat).
  { apply lookup_lt_Some in Ht. rewrite HlT in Ht. exact Ht. }
  destruct (Hb i) as [HT HC]; [exact Hi | exact Hi | exact Hi |].
  rewrite Ht in HT. cbn [default from_option id] in HT.
  rewrite (zeros_lookup i Hi) in HT. cbn [default from_option id] in HT.
  rewrite lookup_replicate_2 in HC by assumption. cbn [default from_option id] in HC.
  unfold average. rewrite HC. cbn [Nat.add].
  set (bucket := List.filter (counted i) filteredData) in *.
  destruct (Nat.ltb_spec 0 (length bucket)) as [Hpos|_]; [|split; reflexivity].
  assert (Hbl : (length bucket <= length filteredData)%nat) by apply List.filter_length_le.
  destruct (count_number (Z.of_nat (length bucket))) as (m & e & ->); [lia|].
  apply round2_of_signClear, num_div_signClear. rewrite HT.
  apply fold_add_signClear; [reflexivity|].
  apply Forall_map. apply Forall_filter_keep. exact Hfil.
Qed.

Lemma X11_averages_not_negative_witness :
  Forall nonNegative
         (getMonthlyAverages
            (JArr [mkPoint "Delhi" "diesel" 2020 3 (decimal false 625 (-1));
                   mkPoint "Delhi" "diesel" 2020 3 Infinity])
            (JStr "Delhi") (JStr "diesel") (JNum (num_of_Z 2020))).
Proof.
  apply X11_averages_not_negative.
  - repeat constructor.
  - reflexivity.
Defined.

(** X12: a record that does not match the city, the fuel type and the year
    of the query never changes the series, wherever it stands in the
    dataset. *)
Theorem X12_other_records_do_not_count (before after : list RSPDataPoint)
        (d : RSPDataPoint) (city fuelType year : jsval) :
  matches city fuelType year d = false ->
  getMonthlyAverages (JArr (before ++ d :: after)) city fuelType year
  = getMonthlyAverages (JArr (before ++ after)) city fuelType year.
Proof.
  intros Hd. unfold getMonthlyAverages, getMonthlyAverages_try.
  rewrite !List.filter_app. cbn [List.filter]. now rewrite Hd.
Qed.

Lemma X12_other_records_do_not_count_witness :
  getMonthlyAverages
    (JArr ([mkPoint "Mumbai" "petrol" 2023 1 (num_of_Z 100)]
           ++ mkPoint "Mumbai" "diesel" 2023 1 (num_of_Z 90)
           :: [mkPoint "Mumbai" "petrol" 2023 1 (num_of_Z 102)]))
    (JStr "Mumbai") (JStr "petrol") (JNum (num_of_Z 2023))
  = num_of_Z 101 :: replicate 11 zero.
Proof.
  rewrite X12_other_records_do_not_count; reflexivity.
Defined.

End AggregatorProperties.

(* ===================================================================== *)
(** * Further properties of the fallback generator *)
(* ===================================================================== *)

Section GeneratorProperties.




Lemma filter_imap_keys (p : string * string * Z * Z -> bool)
      (f : nat -> string * string * Z * Z -> RSPDataPoint)
      (l : list (string * string * Z * Z)) :
  (forall k key, keyOf (f k key) = key) ->
  List.map keyOf (List.filter (fun d => p (keyOf d)) (imap f l)) = List.filter p l.
Proof.
  revert f. induction l as [|key l IH]; intros f Hf; [reflexivity|].
  cbn [imap List.filter]. rewrite Hf.
  destruct (p key); cbn [List.map]; rewrite ?Hf; f_equal; apply IH; intros; apply Hf.
Qed.

Lemma crossProduct_buckets :
  forallb (fun key => match List.filter (fun other => keyEqb other key) crossProduct with
                      | [_] => true
                      | _ => false
                      end) crossProduct = true.
Proof. vm_compute. reflexivity. Qed.

Lemma keyEqb_eq (a b : string * string * Z * Z) : keyEqb a b = true -> a = b.
Proof.
  destruct a as [[[c1 f1] y1] m1], b as [[[c2 f2] y2] m2]. unfold keyEqb.
  intros H. repeat (apply andb_true_iff in H as [H ?]).
  apply String.eqb_eq in H. repeat match goal with
  | H : String.eqb _ _ = true |- _ => apply String.eqb_eq in H
  | H : Z.eqb _ _ = true |- _ => apply Z.eqb_eq in H
  end. congruence.
Qed.

Lemma bucketOf_keys (items : list RSPDataPoint) (c f : string) (y : Z) (i : nat) :
  bucketOf items c f y i
  = List.filter (fun d => keyEqb (keyOf d) (c, f, y, Z.of_nat i + 1)) items.
Proof. reflexivity. Qed.

Lemma sampleOf_key (random : nat -> number) (k : nat) (key : string * string * Z * Z) :
  keyOf (sampleOf random k key) = key.
Proof. now destruct key as [[[c f] y] m]. Qed.

(** X14: the sample data answers every query of the dropdowns with exactly
    one record per month.  For every key of the cross product, the records
    that [getMonthlyAverages] puts in the bucket of its month are a single
    record, the one generated for that key. *)
Theorem X14_sample_data_one_record_per_month (random : nat -> number)
        (c f : string) (y : Z) (i : nat) :
  In (c, f, y, Z.of_nat i + 1) crossProduct ->
  exists d, bucketOf (generateSampleData random) c f y i = [d]
            /\ keyOf d = (c, f, y, Z.of_nat i + 1).
Proof.
  intros Hin.
  pose proof crossProduct_buckets as Hall. rewrite forallb_forall in Hall.
  specialize (Hall _ Hin).
  pose proof (filter_imap_keys (fun other => keyEqb other (c, f, y, Z.of_nat i + 1))
                (sampleOf random) crossProduct (sampleOf_key random)) as Hmap.
  cbv beta in Hmap, Hall.
  rewrite <- generateSampleData_imap in Hmap.
  rewrite <- (bucketOf_keys (generateSampleData random) c f y i) in Hmap.
  assert (Hkeys : forall d, In d (bucketOf (generateSampleData random) c f y i) ->
                            keyOf d = (c, f, y, Z.of_nat i + 1)).
  { intros d Hd. rewrite bucketOf_keys in Hd. apply filter_In in Hd as [_ Hd].
    now apply keyEqb_eq. }
  rewrite <- Hmap in Hall.
  destruct (bucketOf (generateSampleData random) c f y i) as [|d [|d' rest]];
    try discriminate.
  exists d. split; [reflexivity|]. apply Hkeys. now left.
Qed.

Lemma X14_sample_data_one_record_per_month_witness :
  exists d, bucketOf (generateSampleData (fun _ => zero)) "Mumbai" "petrol" 2017 1 = [d]
            /\ keyOf d = ("Mumbai", "petrol", 2017, 2).
Proof.
  apply (X14_sample_data_one_record_per_month (fun _ => zero) "Mumbai" "petrol" 2017 1).
  vm_compute. right. left. reflexivity.
Defined.

End GeneratorProperties.

(* ===================================================================== *)
(** * Properties of the data loader *)
(* ===================================================================== *)

Section LoaderProperties.

Lemma prefix_append (p s : string) :
  String.prefix p s = true <-> exists post, s = (p ++ post)%string.
Proof.
  revert s. induction p as [|c p IH]; intros s.
  - split; [intros _; now exists s | intros _; now destruct s].
  - destruct s as [|c' s]; cbn [String.prefix append].
    + split; [discriminate | intros (post & H); discriminate].
    + destruct (Ascii.ascii_dec c c') as [<-|Hne].
      * rewrite IH. split; intros (post & H); exists post; [now rewrite H | now inversion H].
      * split; [discriminate | intros (post & H); inversion H; congruence].
Qed.

(** [includes] is the substring test. *)
Lemma includes_substring (needle hay : string) :
  includes needle hay = true
  <-> exists pre post, hay = (pre ++ needle ++ post)%string.
Proof.
  induction hay as [|c hay IH].
  - cbn [includes]. rewrite orb_false_r, prefix_append. split.
    + intros (post & H). now exists EmptyString, post.
    + intros (pre & post & H). exists post.
      destruct pre as [|c' pre]; [exact H | discriminate].
  - cbn [includes]. rewrite orb_true_iff, prefix_append, IH. split.
    + intros [(post & H) | (pre & post & H)].
      * now exists EmptyString, post.
      * exists (String c pre), post. simpl. now rewrite H.
    + intros (pre & post & H). destruct pre as [|c' pre].
      * left. now exists post.
      * right. exists pre, post. now inversion H.
Qed.

Lemma trim_cons_empty (c : ascii) (s : string) :
  trim (String c s) = EmptyString -> isWhiteSpace c = true /\ trim s = EmptyString.
Proof.
  unfold trim. cbn [trimStart].
  destruct (isWhiteSpace c) eqn:Hc; [now split|].
  cbn [trimEnd]. rewrite Hc. discriminate.
Qed.

Lemma trim_white_cons (c : ascii) (s : string) :
  isWhiteSpace c = true -> trim s = EmptyString -> trim (String c s) = EmptyString.
Proof. intros Hc Hs. unfold trim. cbn [trimStart]. now rewrite Hc. Qed.

(** The lines of a text of white space are lines of white space. *)
Lemma split_blank (sep : ascii) (s : string) :
  trim s = EmptyString -> Forall (fun l => trim l = EmptyString) (split sep s).
Proof.
  induction s as [|c s IH]; intros Hs.
  - repeat constructor.
  - apply trim_cons_empty in Hs as [Hc Hs]. specialize (IH Hs). cbn [split].
    destruct (Ascii.eqb c sep).
    + constructor; [reflexivity | exact IH].
    + destruct (split sep s) as [|f fs]; [repeat constructor; now apply trim_white_cons|].
      inversion IH; subst. constructor; [now apply trim_white_cons | assumption].
Qed.

Lemma validRowsOf_blank (jsDate : string -> option (Z * Z)) (lines : list string) :
  Forall (fun l => trim l = EmptyString) lines -> validRowsOf jsDate lines = [].
Proof.
  induction 1 as [|l lines Hl _ IH]; [reflexivity|].
  unfold validRowsOf in *. cbn [omap list_omap].
  unfold processLine at 1. rewrite Hl. cbn [isEmpty pointOf]. exact IH.
Qed.

(** A text that [parseCSVData] accepts is not blank. *)
Lemma parsed_text_not_blank (jsDate : string -> option (Z * Z)) (csvText : string)
      (rows : list RSPDataPoint) :
  parseCSVData jsDate csvText = Returns rows ->
  isEmpty csvText = false /\ (String.length (trim csvText) =? 0)%nat = false
  /\ rows <> [].
Proof.
  intros H. apply parseCSVData_Returns in H as (_ & Hne & Hrows).
  assert (Hnb : trim csvText <> EmptyString).
  { intros Hb. apply Hne. rewrite Hrows. apply validRowsOf_blank.
    pose proof (split_blank newline csvText Hb) as Hall.
    destruct (split newline csvText); [constructor|]. now inversion Hall. }
  split; [|split; [|exact Hne]].
  - destruct csvText; [now contradiction Hnb | reflexivity].
  - destruct (trim csvText); [now contradiction Hnb | reflexivity].
Qed.

(** X15: when [loadRealData] serves the file.  The [try] block returns
    records exactly when the fetch resolves to a response that is ok, whose
    content type has [text/csv] somewhere in it, in that letter case, and
    whose body is a text that [parseCSVData] accepts; the records are then
    the ones parsed.  The tests for a blank body and for an empty array
    never decide: such a text is refused by [parseCSVData] itself.  In every
    other case the result is the sample data. *)
Theorem X15_load_serves_file_iff (jsDate : string -> option (Z * Z))
        (random : nat -> number) (f : fetched) :
  (forall rows,
      loadRealData_try jsDate f = inr rows
      <-> exists r pre post csvText,
          f = Resolved r /\ ok r = true
          /\ contentType r = Some (pre ++ "text/csv" ++ post)%string
          /\ body r = Some csvText
          /\ parseCSVData jsDate csvText = Returns rows)
  /\ (forall rows, loadRealData_try jsDate f = inr rows ->
                   loadRealData jsDate random f = rows)
  /\ ((forall rows, loadRealData_try jsDate f <> inr rows) ->
      loadRealData jsDate random f = generateSampleData random).
Proof.
  split; [|split].
  - intros rows. split.
    + destruct f as [|r]; [discriminate|]. unfold loadRealData_try.
      destruct (ok r) eqn:Hok; [|discriminate]. cbn [negb].
      destruct (contentType r) as [value|] eqn:Hct; [|discriminate].
      destruct (includes "text/csv" value) eqn:Hinc; [|discriminate]. cbn [negb].
      apply includes_substring in Hinc as (pre & post & ->).
      destruct (body r) as [csvText|] eqn:Hbody; [|discriminate].
      destruct (isEmpty csvText || (String.length (trim csvText) =? 0)%nat);
        [discriminate|].
      destruct (parseCSVData jsDate csvText) as [parsedData|message] eqn:Hparse;
        [|discriminate].
      destruct (length parsedData =? 0)%nat; [discriminate|].
      intros H. inversion H. subst. now exists r, pre, post, csvText.
    + intros (r & pre & post & csvText & -> & Hok & Hct & Hbody & Hparse).
      unfold loadRealData_try. rewrite Hok, Hct, Hbody. cbn [negb].
      assert (Hinc : includes "text/csv" (pre ++ "text/csv" ++ post) = true)
        by (apply includes_substring; eauto).
      rewrite Hinc. cbn [negb].
      destruct (parsed_text_not_blank jsDate csvText rows Hparse) as (-> & -> & Hne).
      cbn [orb]. rewrite Hparse.
      destruct rows; [contradiction | reflexivity].
  - intros rows H. unfold loadRealData. now rewrite H.
  - intros H. unfold loadRealData.
    destruct (loadRealData_try jsDate f) as [e|rows] eqn:Htry; [reflexivity|].
    now contradiction (H rows).
Qed.

Lemma X15_load_serves_file_iff_witness :
  loadRealData isoDate (fun _ => zero)
    (Resolved (mkResponse true (Some "text/csv; charset=utf-8")
                 (Some (joinLines [sampleHeader;
                                   "India,2023,1,2023-01-15,Petrol,Mumbai,NA"]))))
  = [mkPoint "Mumbai" "petrol" 2023 1 zero]
  /\ loadRealData isoDate (fun _ => zero)
       (Resolved (mkResponse true (Some "TEXT/CSV")
                    (Some (joinLines [sampleHeader;
                                      "India,2023,1,2023-01-15,Petrol,Mumbai,NA"]))))
     = generateSampleData (fun _ => zero).
Proof.
  split.
  - apply (X15_load_serves_file_iff isoDate (fun _ => zero)). reflexivity.
  - apply (X15_load_serves_file_iff isoDate (fun _ => zero)). intros rows. discriminate.
Defined.

Lemma validPoint_fieldsValid (d : RSPDataPoint) : validPoint d -> fieldsValid d.
Proof.
  intros (Hc & Hf & Hy & Hm & Hfin & Hge & _).
  repeat (split; [assumption|]).
  split; [|exact Hge]. destruct (rsp d); try discriminate; reflexivity.
Qed.

(** X16: whatever the fetch does, the application gets a dataset it can
    use.  With a date parser whose month index is within 0..11 and random
    values within [0, 1), [loadRealData] returns at least one record, and
    every record has a city that is not empty, the fuel type petrol or
    diesel, a year within 2017..2025, a month within 1..12 and a price that
    is not NaN and not below 0. *)
Theorem X16_loaded_dataset_is_usable (jsDate : string -> option (Z * Z))
        (random : nat -> number) (f : fetched) :
  (forall s fullYear monthIndex,
      jsDate s = Some (fullYear, monthIndex) -> 0 <= monthIndex <= 11) ->
  (forall k, unitInterval (random k)) ->
  loadRealData jsDate random f <> []
  /\ Forall fieldsValid (loadRealData jsDate random f).
Proof.
  intros Hmonth Hrandom. unfold loadRealData.
  destruct (loadRealData_try jsDate f) as [e|rows] eqn:Htry.
  - rewrite generateSampleData_imap. split.
    + intros Hnil. apply (f_equal length) in Hnil. rewrite length_imap in Hnil.
      discriminate.
    + apply imap_Forall. intros k key Hin.
      now apply validPoint_fieldsValid, sampleOf_valid.
  - destruct f as [|r]; [discriminate|]. unfold loadRealData_try in Htry.
    destruct (negb (ok r)); [discriminate|].
    destruct (negb _); [discriminate|].
    destruct (body r) as [csvText|]; [|discriminate].
    destruct (isEmpty csvText || _); [discriminate|].
    destruct (parseCSVData jsDate csvText) as [parsedData|message] eqn:Hparse;
      [|discriminate].
    destruct (length parsedData =? 0)%nat eqn:Hlen; [discriminate|].
    inversion Htry. subst parsedData. split.
    + intros ->. discriminate.
    + now apply (stored_points_invariant jsDate Hmonth csvText).
Qed.

Lemma X16_loaded_dataset_is_usable_witness :
  loadRealData isoDate (fun _ => zero) Rejected <> []
  /\ Forall fieldsValid (loadRealData isoDate (fun _ => zero) Rejected).
Proof.
  apply (X16_loaded_dataset_is_usable isoDate (fun _ => zero) Rejected).
  - apply isoDate_month_range.
  - intros k. split; [reflexivity | split; reflexivity].
Defined.

End LoaderProperties.

(* ===================================================================== *)
(** * Properties of the statistics panel *)
(* ===================================================================== *)

Section StatisticsProperties.

(** A Number above 0 is +Infinity or a finite Number with a clear sign. *)
Lemma aboveZero_cases (v : number) :
  aboveZero v = true ->
  v = Infinity \/ exists m e, v = S754_finite false m e.
Proof.
  destruct v as [s|[]| |[] m e]; try discriminate; intros _; [now left|].
  right. now exists m, e.
Qed.

Lemma compare_cont_Eq_spec (m1 m2 : positive) :
  CompareSpec (Zpos m1 = Zpos m2) (Zpos m1 < Zpos m2) (Zpos m2 < Zpos m1)
              (Pos.compare_cont Eq m1 m2).
Proof.
  change (Pos.compare_cont Eq m1 m2) with (Pos.compare m1 m2).
  destruct (Pos.compare_spec m1 m2) as [H|H|H]; constructor; [now subst | lia | lia].
Qed.

(** [<=] and [<] on finite Numbers above 0: by exponent, then by
    mantissa. *)
Lemma num_leb_finite (m1 m2 : positive) (e1 e2 : Z) :
  num_leb (S754_finite false m1 e1) (S754_finite false m2 e2) = true
  <-> e1 < e2 \/ (e1 = e2 /\ Zpos m1 <= Zpos m2).
Proof.
  unfold num_leb, SFleb, SFcompare.
  destruct (Z.compare_spec e1 e2) as [He|He|He].
  - destruct (compare_cont_Eq_spec m1 m2) as [Hm|Hm|Hm];
      (split; [intros H; try discriminate; lia | intros H; try reflexivity; lia]).
  - split; [intros _; lia | reflexivity].
  - split; [discriminate | lia].
Qed.

Lemma num_ltb_finite (m1 m2 : positive) (e1 e2 : Z) :
  num_ltb (S754_finite false m1 e1) (S754_finite false m2 e2) = true
  <-> e1 < e2 \/ (e1 = e2 /\ Zpos m1 < Zpos m2).
Proof.
  unfold num_ltb, SFltb, SFcompare.
  destruct (Z.compare_spec e1 e2) as [He|He|He].
  - destruct (compare_cont_Eq_spec m1 m2) as [Hm|Hm|Hm];
      (split; [intros H; try discriminate; lia | intros H; try reflexivity; lia]).
  - split; [intros _; lia | reflexivity].
  - split; [discriminate | lia].
Qed.

Ltac above_cases H :=
  apply aboveZero_cases in H as [-> | (? & ? & ->)].

Lemma num_leb_refl (a : number) : aboveZero a = true -> num_leb a a = true.
Proof.
  intros Ha. above_cases Ha; [reflexivity|]. apply num_leb_finite. lia.
Qed.

Lemma num_leb_trans (a b c : number) :
  aboveZero a = true -> aboveZero b = true -> aboveZero c = true ->
  num_leb a b = true -> num_leb b c = true -> num_leb a c = true.
Proof.
  intros Ha Hb Hc. above_cases Ha; above_cases Hb; above_cases Hc;
    try reflexivity; try discriminate; try (intros; assumption).
  rewrite !num_leb_finite. lia.
Qed.

Lemma num_ltb_leb (a b : number) :
  aboveZero a = true -> aboveZero b = true ->
  num_ltb a b = true -> num_leb a b = true.
Proof.
  intros Ha Hb. above_cases Ha; above_cases Hb;
    try reflexivity; try discriminate.
  rewrite num_ltb_finite, num_leb_finite. lia.
Qed.

Lemma num_ltb_false_leb (a b : number) :
  aboveZero a = true -> aboveZero b = true ->
  num_ltb a b = false -> num_leb b a = true.
Proof.
  intros Ha Hb. above_cases Ha; above_cases Hb;
    try reflexivity; try discriminate.
  intros H. apply num_leb_finite.
  match goal with
  | H : num_ltb (S754_finite false ?m1 ?e1) (S754_finite false ?m2 ?e2) = false |- _ =>
      pose proof (num_ltb_finite m1 m2 e1 e2) as Hlt; rewrite H in Hlt
  end.
  destruct Hlt as [_ Hlt].
  match goal with
  | |- ?e2 < ?e1 \/ _ =>
      destruct (Z_lt_le_dec e2 e1) as [|Hle]; [now left|]
  end.
  right.
  match goal with
  | |- ?e2 = ?e1 /\ Zpos ?m2 <= Zpos ?m1 =>
      destruct (Z_lt_le_dec e1 e2) as [Hl|Hge];
        [now discriminate Hlt; left|];
      split; [lia|];
      destruct (Z_lt_le_dec (Zpos m1) (Zpos m2)) as [Hm|Hm];
        [discriminate Hlt; right; split; lia | exact Hm]
  end.
Qed.

Lemma Math_max_above (a v : number) :
  aboveZero a = true -> aboveZero v = true ->
  Math_max a v = if num_ltb a v then v else a.
Proof. intros Ha Hv. above_cases Ha; above_cases Hv; reflexivity. Qed.

Lemma Math_min_above (a v : number) :
  aboveZero a = true -> aboveZero v = true ->
  Math_min a v = if num_ltb v a then v else a.
Proof. intros Ha Hv. above_cases Ha; above_cases Hv; reflexivity. Qed.

(** The scan for the maximum, from a Number above 0. *)
Lemma fold_max_above (l : list number) (acc : number) :
  aboveZero acc = true -> Forall (fun v => aboveZero v = true) l ->
  let r := fold_left Math_max l acc in
  aboveZero r = true /\ (r = acc \/ In r l) /\ num_leb acc r = true
  /\ Forall (fun v => num_leb v r = true) l.
Proof.
  revert acc. induction l as [|v l IH]; intros acc Hacc Hl; cbn [fold_left].
  - repeat split; [assumption | now left | now apply num_leb_refl | constructor].
  - inversion Hl as [|v' l' Hv Hl']; subst.
    assert (Hstep : aboveZero (Math_max acc v) = true
                    /\ (Math_max acc v = acc \/ Math_max acc v = v)
                    /\ num_leb acc (Math_max acc v) = true
                    /\ num_leb v (Math_max acc v) = true).
    { rewrite (Math_max_above acc v Hacc Hv).
      destruct (num_ltb acc v) eqn:Hlt.
      - repeat split; [assumption | now right | now apply num_ltb_leb
                       | now apply num_leb_refl].
      - repeat split; [assumption | now left | now apply num_leb_refl
                       | now apply num_ltb_false_leb]. }
    destruct Hstep as (Hab & Hwhich & Hle1 & Hle2).
    destruct (IH (Math_max acc v) Hab Hl') as (Hr & Hin & Hle & Hall).
    split; [exact Hr|]. split; [|split].
    + destruct Hin as [Hin|Hin]; [|right; now right].
      rewrite Hin. destruct Hwhich as [->| ->]; [now left | right; now left].
    + now apply (num_leb_trans acc (Math_max acc v)).
    + constructor; [|exact Hall].
      now apply (num_leb_trans v (Math_max acc v)).
Qed.

(** The scan for the minimum, from a Number above 0. *)
Lemma fold_min_above (l : list number) (acc : number) :
  aboveZero acc = true -> Forall (fun v => aboveZero v = true) l ->
  let r := fold_left Math_min l acc in
  aboveZero r = true /\ (r = acc \/ In r l) /\ num_leb r acc = true
  /\ Forall (fun v => num_leb r v = true) l.
Proof.
  revert acc. induction l as [|v l IH]; intros acc Hacc Hl; cbn [fold_left].
  - repeat split; [assumption | now left | now apply num_leb_refl | constructor].
  - inversion Hl as [|v' l' Hv Hl']; subst.
    assert (Hstep : aboveZero (Math_min acc v) = true
                    /\ (Math_min acc v = acc \/ Math_min acc v = v)
                    /\ num_leb (Math_min acc v) acc = true
                    /\ num_leb (Math_min acc v) v = true).
    { rewrite (Math_min_above acc v Hacc Hv).
      destruct (num_ltb v acc) eqn:Hlt.
      - repeat split; [assumption | now right | now apply num_ltb_leb
                       | now apply num_leb_refl].
      - repeat split; [assumption | now left | now apply num_leb_refl
                       | now apply num_ltb_false_leb]. }
    destruct Hstep as (Hab & Hwhich & Hle1 & Hle2).
    destruct (IH (Math_min acc v) Hab Hl') as (Hr & Hin & Hle & Hall).
    split; [exact Hr|]. split; [|split].
    + destruct Hin as [Hin|Hin]; [|right; now right].
      rewrite Hin. destruct Hwhich as [->| ->]; [now left | right; now left].
    + now apply (num_leb_trans _ (Math_min acc v)).
    + constructor; [|exact Hall].
      now apply (num_leb_trans _ (Math_min acc v)).
Qed.

Lemma maxOf_cons (v : number) (l : list number) :
  aboveZero v = true -> maxOf (v :: l) = fold_left Math_max l v.
Proof.
  intros Hv. unfold maxOf. cbn [fold_left]. f_equal.
  above_cases Hv; reflexivity.
Qed.

Lemma minOf_cons (v : number) (l : list number) :
  aboveZero v = true -> minOf (v :: l) = fold_left Math_min l v.
Proof.
  intros Hv. unfold minOf. cbn [fold_left]. f_equal.
  above_cases Hv; reflexivity.
Qed.

Lemma filter_above (l : list number) :
  Forall (fun v => aboveZero v = true) (List.filter aboveZero l).
Proof.
  induction l as [|v l IH]; cbn [List.filter]; [constructor|].
  destruct (aboveZero v) eqn:Hv; [now constructor | exact IH].
Qed.

(** X17: the panel shows the largest and the smallest of the months that
    have data.  When [updateStatistics] writes the panel, its maximum and
    its minimum are values of the series that are above 0, and every value
    of the series that is above 0 lies between them; the months without
    data, which hold 0, never are the minimum.  The panel is hidden exactly
    when no value is above 0. *)
Theorem X17_statistics_bounds (monthlyData : list number) :
  (forall st, updateStatistics monthlyData = Some st ->
              In (maxPrice st) monthlyData /\ aboveZero (maxPrice st) = true
              /\ In (minPrice st) monthlyData /\ aboveZero (minPrice st) = true
              /\ forall v, In v monthlyData -> aboveZero v = true ->
                           num_leb (minPrice st) v = true
                           /\ num_leb v (maxPrice st) = true)
  /\ (updateStatistics monthlyData = None
      <-> Forall (fun v => aboveZero v = false) monthlyData).
Proof.
  unfold updateStatistics.
  pose proof (filter_above monthlyData) as Habove.
  assert (Hsub : forall v, In v (List.filter aboveZero monthlyData) -> In v monthlyData)
    by (intros v Hv; now apply filter_In in Hv).
  assert (Hin : forall v, In v monthlyData -> aboveZero v = true ->
                          In v (List.filter aboveZero monthlyData))
    by (intros v Hv Ha; now apply filter_In).
  split.
  - intros st.
    destruct (List.filter aboveZero monthlyData) as [|v0 l] eqn:Hfil; [discriminate|].
    cbn [length Nat.eqb]. intros H. inversion H. subst st. clear H.
    cbn [maxPrice minPrice].
    inversion Habove as [|v0' l' Hv0 Hl]; subst.
    rewrite (maxOf_cons v0 l Hv0), (minOf_cons v0 l Hv0).
    destruct (fold_max_above l v0 Hv0 Hl) as (Hmax & Hmaxin & Hmaxle & Hmaxall).
    destruct (fold_min_above l v0 Hv0 Hl) as (Hmin & Hminin & Hminle & Hminall).
    split; [apply Hsub; destruct Hmaxin as [->|Hi]; [now left | now right]|].
    split; [exact Hmax|].
    split; [apply Hsub; destruct Hminin as [->|Hi]; [now left | now right]|].
    split; [exact Hmin|].
    intros v Hv Ha. specialize (Hin v Hv Ha).
    destruct Hin as [<-|Hin]; [now split|].
    rewrite List.Forall_forall in Hmaxall, Hminall. split; auto.
  - split.
    + intros Hnone. apply List.Forall_forall. intros v Hv.
      destruct (aboveZero v) eqn:Ha; [|reflexivity].
      specialize (Hin v Hv Ha).
      destruct (List.filter aboveZero monthlyData); [contradiction | discriminate].
    + intros Hall.
      destruct (List.filter aboveZero monthlyData) as [|v0 l] eqn:Hfil; [reflexivity|].
      assert (Hv0 : In v0 (v0 :: l)) by now left.
      rewrite List.Forall_forall in Hall.
      pose proof (Hall v0 (Hsub v0 Hv0)) as Hno.
      inversion Habove; subst. congruence.
Qed.

Lemma X17_statistics_bounds_witness :
  In (num_of_Z 101) [zero; num_of_Z 101; zero; num_of_Z 99]
  /\ In (num_of_Z 99) [zero; num_of_Z 101; zero; num_of_Z 99].
Proof.
  destruct (X17_statistics_bounds [zero; num_of_Z 101; zero; num_of_Z 99]) as [H _].
  destruct (H (mkStatistics (num_of_Z 100) (num_of_Z 101) (num_of_Z 99) (num_of_Z 2))
              eq_refl) as (Hmax & _ & Hmin & _).
  split; [exact Hmax | exact Hmin].
Defined.

End StatisticsProperties.
